(** * Kokoro-FastAPI audio service: normalisation, silence trimming and the
      streaming writer registry ([api/src/services/audio.py])

    The development embeds [AudioNormalizer] and [AudioService] shallowly.

    - int16 sample buffers are [list Z]; the float buffer handed to
      [normalize] is a list of IEEE binary64 numbers ([PrimFloat.float]),
      and in [Ndarray] an array with its dtype, float32 or float64, held in
      a heap of arrays;
    - Python scalars that may be [int] or [float] at run time (the speed,
      the configured durations and multipliers, the word timestamps) are
      exact rationals [Q], with [int()] and [math.ceil] written out; the
      one place where the rounding of a float operation reaches a result,
      the division by the speed in the silence locator, is modelled a
      second time on binary64 in [Binary64];
    - the class attribute [AudioService._writers] is a [gmap string W];
    - [convert_audio] runs in a small state-and-exception monad: the state
      survives a raised exception, as Python's does. *)

From Stdlib Require Import ZArith QArith Qround Qpower Qminmax Floats Lia Ascii String.
From stdpp Require Import gmap strings list pretty.

Local Open Scope Z_scope.

(** ** Python values *)

Module Py.

(** Exceptions that the service raises or lets through.  All of them derive
    from [Exception], so the handler of [convert_audio] catches each one.
    [CollaboratorError] stands for whatever the encoder collaborator
    ([StreamingAudioWriter]) raises. *)
Inductive exn : Type :=
  | ValueError (msg : string)
  | ZeroDivisionError (msg : string)
  | UnboundLocalError (msg : string)
  | OverflowError (msg : string)
  | CollaboratorError (msg : string).

(** [str(e)] *)
Definition str (e : exn) : string :=
  match e with
  | ValueError m | ZeroDivisionError m | UnboundLocalError m
  | OverflowError m | CollaboratorError m => m
  end.

(** A computation that either raises or returns. *)
Definition result (A : Type) : Type := exn + A.

(** [l[start:stop]] for a sequence: negative indices count from the end and
    both bounds are clamped to the sequence, so a slice never raises. *)
Definition slice_index (len i : Z) : Z :=
  if i <? 0 then Z.max (len + i) 0 else Z.min i len.

Definition slice {A} (l : list A) (start stop : Z) : list A :=
  let len := Z.of_nat (length l) in
  let lo := slice_index len start in
  let hi := slice_index len stop in
  drop (Z.to_nat lo) (take (Z.to_nat hi) l).

(** [int(x)]: truncation toward zero. *)
Definition int (x : Q) : Z := Z.quot (Qnum x) (Z.pos (Qden x)).

(** [math.ceil(x)] *)
Definition ceil (x : Q) : Z := Qceiling x.

(** [a / b] in exact arithmetic: true division raises on a zero divisor
    (the message is the one for an [int] divisor).  The division as Python
    rounds it, with the message of a [float] zero divisor and the overflow
    of the quotient, is [Binary64.truediv]. *)
Definition truediv (a b : Q) : result Q :=
  if Qeq_bool b 0 then inl (ZeroDivisionError "division by zero")
  else inr (a / b)%Q.

(** Characters that [str.isspace] accepts, among code points below 256
    (chunk texts are strings over these code points). *)
Definition isspace (c : ascii) : bool :=
  let n := nat_of_ascii c in
  ((9 <=? n) && (n <=? 13) || (28 <=? n) && (n <=? 32)
   || (n =? 133) || (n =? 160))%nat.

Fixpoint lstrip (s : string) : string :=
  match s with
  | String c s' => if isspace c then lstrip s' else s
  | EmptyString => EmptyString
  end.

Fixpoint rstrip (s : string) : string :=
  match s with
  | EmptyString => EmptyString
  | String c s' =>
      match rstrip s' with
      | EmptyString => if isspace c then EmptyString else String c EmptyString
      | r => String c r
      end
  end.

(** [s.strip()] *)
Definition strip (s : string) : string := rstrip (lstrip s).

(** [s[-1]] of a non-empty string, as a one-character string. *)
Fixpoint last_char (s : string) : option string :=
  match s with
  | EmptyString => None
  | String c EmptyString => Some (String c EmptyString)
  | String _ s' => last_char s'
  end.

End Py.

(** ** numpy on binary64 and int16 *)

Module Np.

Definition int16_min : Z := -32768.
Definition int16_max : Z := 32767.

(** [np.iinfo(np.int16).max] *)
Definition iinfo_int16_max : Z := int16_max.

(** Integer part of a binary64 number; [None] for NaN and the infinities. *)
Definition SF_trunc (f : spec_float) : option Z :=
  match f with
  | S754_zero _ => Some 0
  | S754_finite s m e =>
      let mag := if 0 <=? e then Z.pos m * 2 ^ e
                 else Z.shiftr (Z.pos m) (- e) in
      Some (if s then - mag else mag)
  | S754_infinity _ | S754_nan => None
  end.

(** Two's complement reduction to 16 bits. *)
Definition wrap_int16 (z : Z) : Z := (z + 32768) mod 65536 - 32768.

(** [x.astype(np.int16)] on one binary64 element: the C conversion truncates
    toward zero.  Out of range the C result is not defined; the model wraps,
    and maps NaN and the infinities to 0 as x86-64 builds do.  After the
    clip of [normalize] only the NaN case can still occur. *)
Definition astype_int16 (x : float) : Z :=
  match SF_trunc (Prim2SF x) with
  | Some z => wrap_int16 z
  | None => 0
  end.

(** numpy's clip kernel for floating types:
    [_NPY_MAX(a, b) = isnan(a) ? a : (a > b ? a : b)],
    [_NPY_MIN(a, b) = isnan(a) ? a : (a < b ? a : b)],
    [clip(x, lo, hi) = _NPY_MIN(_NPY_MAX(x, lo), hi)]. *)
Definition npy_max (a b : float) : float :=
  if PrimFloat.is_nan a then a else if PrimFloat.ltb b a then a else b.

Definition npy_min (a b : float) : float :=
  if PrimFloat.is_nan a then a else if PrimFloat.ltb a b then a else b.

Definition clip (x lo hi : float) : float := npy_min (npy_max x lo) hi.

End Np.

(** ** Configuration ([core.config.settings])

    The settings object is read, never written, by the audio service.  Its
    three fields used here are taken as they are configured. *)

Record Settings : Type := {
  gap_trim_ms : Q;
  dynamic_gap_trim_padding_ms : Q;
  dynamic_gap_trim_padding_char_multiplier : gmap string Q
}.

(** ** [class AudioNormalizer] *)

Record AudioNormalizer : Type := {
  chunk_trim_ms : Q;
  sample_rate : Z;
  samples_to_trim : Z;
  samples_to_pad_start : Z
}.

Module Normalizer.

(** [AudioNormalizer.__init__] *)
Definition init (settings : Settings) : AudioNormalizer :=
  let chunk_trim_ms := gap_trim_ms settings in
  let sample_rate := 24000 in
  {| chunk_trim_ms := chunk_trim_ms;
     sample_rate := sample_rate;
     samples_to_trim :=
       Py.int (chunk_trim_ms * inject_Z sample_rate / 1000)%Q;
     samples_to_pad_start := Py.int (50 * inject_Z sample_rate / 1000)%Q |}.

(** Lines 43-48: the multiplier selected by the last character of the
    stripped chunk text, 1 when the text is blank or the character is not in
    the table. *)
Definition pad_multiplier (settings : Settings) (chunk_text : string) : Q :=
  match Py.last_char (Py.strip chunk_text) with
  | Some split_character =>
      match dynamic_gap_trim_padding_char_multiplier settings !! split_character with
      | Some m => m
      | None => 1%Q
      end
  | None => 1%Q
  end.

(** The dynamic pad of line 51 in samples, before the leading pad is taken
    off: [int((dynamic_gap_trim_padding_ms * sample_rate * m) / 1000)]. *)
Definition dynamic_pad_samples
    (settings : Settings) (self : AudioNormalizer) (m : Q) : Z :=
  Py.int (dynamic_gap_trim_padding_ms settings
          * inject_Z (sample_rate self) * m / 1000)%Q.

(** Lines 50-53: [samples_to_pad_end]. *)
Definition samples_to_pad_end
    (settings : Settings) (self : AudioNormalizer)
    (pad_multiplier : Q) (is_last_chunk : bool) : Z :=
  if negb is_last_chunk
  then Z.max (dynamic_pad_samples settings self pad_multiplier
              - samples_to_pad_start self) 0
  else samples_to_pad_start self.

(** Line 55 and the comparisons of lines 60 and 65.  The threshold is
    [iinfo.max * 10 ** (db / 20)], a positive real; an integer sample [x]
    lies above it exactly when [x > 0] and [x^20 > iinfo.max^20 * 10^db],
    which is decided here in integers.  (For the default of -45 dB the
    threshold is 184.26..., see [above_default_threshold].) *)
Definition above_threshold (silence_threshold_db : Z) (x : Z) : bool :=
  (0 <? x) &&
  (if 0 <=? silence_threshold_db
   then Np.iinfo_int16_max ^ 20 * 10 ^ silence_threshold_db <? x ^ 20
   else Np.iinfo_int16_max ^ 20 <? x ^ 20 * 10 ^ (- silence_threshold_db)).

(** Lines 59-62: [for X in range(0, len(audio_data))], first hit wins. *)
Fixpoint scan_up (loud : Z -> bool) (audio_data : list Z) (X : Z) : option Z :=
  match audio_data with
  | [] => None
  | a :: rest => if loud a then Some X else scan_up loud rest (X + 1)
  end.

(** Lines 64-67: [for X in range(len(audio_data) - 1, -1, -1)]; [n] is the
    number of indices still to visit, the next one being [n - 1]. *)
Fixpoint scan_down (loud : Z -> bool) (audio_data : list Z) (n : nat) : option Z :=
  match n with
  | O => None
  | S X =>
      match audio_data !! X with
      | Some a => if loud a then Some (Z.of_nat X) else scan_down loud audio_data X
      | None => scan_down loud audio_data X
      end
  end.

(** The pad that line 73 adds to the last loud index:
    [math.ceil(samples_to_pad_end / speed)], the quotient taken exactly.
    [Binary64.trailing_pad] takes the quotient as binary64 rounds it. *)
Definition trailing_pad (samples_to_pad_end : Z) (speed : Q) : Py.result Z :=
  match Py.truediv (inject_Z samples_to_pad_end) speed with
  | inl e => inl e
  | inr q => inr (Py.ceil q)
  end.

(** [AudioNormalizer.find_first_last_non_silent] *)
Definition find_first_last_non_silent
    (settings : Settings) (self : AudioNormalizer)
    (audio_data : list Z) (chunk_text : string) (speed : Q)
    (silence_threshold_db : Z) (is_last_chunk : bool) : Py.result (Z * Z) :=
  let pad_multiplier := pad_multiplier settings chunk_text in
  let samples_to_pad_end :=
    samples_to_pad_end settings self pad_multiplier is_last_chunk in
  let loud := above_threshold silence_threshold_db in
  let non_silent_index_start := scan_up loud audio_data 0 in
  let non_silent_index_end := scan_down loud audio_data (length audio_data) in
  let len := Z.of_nat (length audio_data) in
  match non_silent_index_start, non_silent_index_end with
  | Some first, Some last =>
      match trailing_pad samples_to_pad_end speed with
      | inl e => inl e
      | inr pad =>
          inr (Z.max (first - samples_to_pad_start self) 0,
               Z.min (last + pad) len)
      end
  | _, _ => inr (0, len)
  end.

(** The default of the [silence_threshold_db] parameter. *)
Definition default_silence_threshold_db : Z := -45.

(** [AudioNormalizer.normalize] on the elements of a float64 array.
    [Ndarray.normalize] has the array with its dtype. *)
Definition normalize (self : AudioNormalizer) (audio_data : list float)
    : Py.result (list Z) :=
  if (length audio_data =? 0)%nat then inl (Py.ValueError "Empty audio data")
  else inr (map (fun x => Np.astype_int16
                            (Np.clip (x * 32767)%float (-32768)%float 32767%float))
                audio_data).

End Normalizer.

(** ** Audio chunks ([inference.base.AudioChunk]) *)

(** One entry of [word_timestamps]: a dict with the keys ["word"],
    ["start_time"] and ["end_time"]. *)
Record WordTimestamp : Type := {
  word : string;
  start_time : Q;
  end_time : Q
}.

(** The chunk is generic in its sample type: [float] as the engine produces
    it, [Z] once [normalize] has run. *)
Record AudioChunk (A : Type) : Type := {
  audio : list A;
  word_timestamps : option (list WordTimestamp)
}.
Arguments audio {A} _.
Arguments word_timestamps {A} _.

(** ** The encoder collaborator ([StreamingAudioWriter])

    A black box with a constructor and the two uses of [write_chunk] that
    the service makes.  Each call may raise; a call on an existing writer
    leaves the writer in some state either way. *)
Class StreamingAudioWriter : Type := {
  writer : Type;
  writer_init : string -> Z -> Py.result writer;
  write_chunk : writer -> list Z -> writer * Py.result (list Byte.byte);
  write_chunk_finalize : writer -> writer * Py.result (list Byte.byte)
}.

(** ** [class AudioService] *)

Module Service.

(** [AudioService.SUPPORTED_FORMATS] *)
Definition SUPPORTED_FORMATS : gset string :=
  {[ "wav"; "mp3"; "opus"; "flac"; "aac"; "pcm"; "ogg" ]}.

(** Shift of one timestamp, lines 207-208. *)
Definition rebase (start_index : Z) (timestamp : WordTimestamp) : WordTimestamp :=
  {| word := word timestamp;
     start_time := (start_time timestamp - inject_Z start_index / 24000)%Q;
     end_time := (end_time timestamp - inject_Z start_index / 24000)%Q |}.

(** Lines 196-198: the fixed trim of both ends. *)
Definition trim_ends (normalizer : AudioNormalizer) (audio : list Z) : list Z :=
  if 2 * samples_to_trim normalizer <? Z.of_nat (length audio)
  then Py.slice audio (samples_to_trim normalizer) (- samples_to_trim normalizer)
  else audio.

(** [AudioService.trim_audio] *)
Definition trim_audio
    (settings : Settings) (audio_chunk : AudioChunk Z) (chunk_text : string)
    (speed : Q) (is_last_chunk : bool) (normalizer : option AudioNormalizer)
    : Py.result (AudioChunk Z) :=
  let normalizer :=
    match normalizer with Some n => n | None => Normalizer.init settings end in
  let audio := trim_ends normalizer (audio audio_chunk) in
  match Normalizer.find_first_last_non_silent settings normalizer audio
          chunk_text speed Normalizer.default_silence_threshold_db
          is_last_chunk with
  | inl e => inl e
  | inr (start_index, end_index) =>
      inr {| audio := Py.slice audio start_index end_index;
             word_timestamps :=
               match word_timestamps audio_chunk with
               | Some l => Some (map (rebase start_index) l)
               | None => None
               end |}
  end.

(** What the service touches outside its arguments. *)
Inductive event : Type :=
  | Constructed (writer_key output_format : string) (sample_rate : Z)
  | WriteRequested (writer_key : string) (samples : list Z)
  | FinalizeRequested (writer_key : string)
  | LoggedError (msg : string).

Section Convert.

Context `{StreamingAudioWriter}.
Variable settings : Settings.

(** The class attribute [_writers], and a journal of the collaborator calls
    and log lines in the order they happen.  The journal is bookkeeping of
    the model: the code keeps no such list. *)
Record state : Type := {
  _writers : gmap string writer;
  journal : list event
}.

(** State that survives exceptions, plus a result or a raised exception. *)
Definition M (A : Type) : Type := state -> state * Py.result A.

Definition ret {A} (a : A) : M A := fun s => (s, inr a).
Definition raise {A} (e : Py.exn) : M A := fun s => (s, inl e).
Definition bind {A B} (m : M A) (k : A -> M B) : M B :=
  fun s => match m s with
           | (s', inr a) => k a s'
           | (s', inl e) => (s', inl e)
           end.
Definition try_except {A} (body : M A) (handler : Py.exn -> M A) : M A :=
  fun s => match body s with
           | (s', inr a) => (s', inr a)
           | (s', inl e) => handler e s'
           end.
Definition lift {A} (r : Py.result A) : M A := fun s => (s, r).
Definition record (ev : event) : M unit :=
  fun s => ({| _writers := _writers s; journal := journal s ++ [ev] |}, inr tt).
Definition get_writers : M (gmap string writer) :=
  fun s => (s, inr (_writers s)).
Definition set_writers (ws : gmap string writer) : M unit :=
  fun s => ({| _writers := ws; journal := journal s |}, inr tt).

Notation "'let*' x ':=' m 'in' k" := (bind m (fun x => k))
  (at level 10, x pattern, m at level 100, k at level 200).
Notation "'do' m 'then' k" := (bind m (fun _ => k))
  (at level 10, m at level 100, k at level 200).

(** [f"{output_format}_{sample_rate}"] *)
Definition writer_key (output_format : string) (sample_rate : Z) : string :=
  output_format +:+ "_" +:+ pretty sample_rate.

(** [x if x else b""] *)
Definition or_empty (data : list Byte.byte) : list Byte.byte :=
  match data with [] => [] | _ => data end.

(** Lines 157-159: construct a writer and store it under the key. *)
Definition start_writer (output_format : string) (sample_rate : Z) : M writer :=
  let key := writer_key output_format sample_rate in
  let* w := lift (writer_init output_format sample_rate) in
  do record (Constructed key output_format sample_rate) then
  let* ws := get_writers in
  do set_writers (<[key := w]> ws) then
  ret w.

(** Lines 156-160: a new writer on the first chunk or when the key has
    none, the stored one otherwise. *)
Definition obtain_writer (output_format : string) (sample_rate : Z)
    (is_first_chunk : bool) : M writer :=
  let key := writer_key output_format sample_rate in
  let* ws := get_writers in
  match ws !! key with
  | Some w =>
      if is_first_chunk then start_writer output_format sample_rate else ret w
  | None => start_writer output_format sample_rate
  end.

(** A call on the writer stored under [key].  The stored writer is the
    object that the call mutates, whether it returns or raises. *)
Definition on_writer (key : string)
    (call : writer -> writer * Py.result (list Byte.byte)) (w : writer)
    : M (writer * list Byte.byte) :=
  let '(w', r) := call w in
  let* ws := get_writers in
  do set_writers (<[key := w']> ws) then
  let* data := lift r in
  ret (w', data).

(** The [UnboundLocalError] of line 172 (worded as CPython 3.11 and later
    do; older versions word it differently). *)
Definition unbound_chunk_data : Py.exn :=
  Py.UnboundLocalError
    "cannot access local variable 'chunk_data' where it is not associated with a value".

(** Lines 162-164.  [chunk_data] is bound only when the write ran. *)
Definition write_step (key : string) (samples : list Z) (w : writer)
    : M (writer * option (list Byte.byte)) :=
  if (0 <? length samples)%nat
  then do record (WriteRequested key samples) then
       let* (w', chunk_data) :=
         on_writer key (fun w => write_chunk w samples) w in
       ret (w', Some chunk_data)
  else ret (w, None).

(** Lines 166-172. *)
Definition finish_step (key : string) (is_last_chunk : bool) (w : writer)
    (chunk_data : option (list Byte.byte)) : M (list Byte.byte) :=
  if is_last_chunk
  then
    do record (FinalizeRequested key) then
    let* (_, final_data) := on_writer key write_chunk_finalize w in
    let* ws := get_writers in
    do set_writers (delete key ws) then
    ret (or_empty final_data)
  else
    match chunk_data with
    | Some chunk_data => ret (or_empty chunk_data)
    | None => raise unbound_chunk_data
    end.

(** Lines 147-152: normalise, then trim. *)
Definition prepare (audio_chunk : AudioChunk float) (speed : Q)
    (chunk_text : string) (is_last_chunk : bool)
    (normalizer : option AudioNormalizer) : Py.result (AudioChunk Z) :=
  let normalizer :=
    match normalizer with Some n => n | None => Normalizer.init settings end in
  match Normalizer.normalize normalizer (audio audio_chunk) with
  | inl e => inl e
  | inr samples =>
      trim_audio settings
        {| audio := samples; word_timestamps := word_timestamps audio_chunk |}
        chunk_text speed is_last_chunk (Some normalizer)
  end.

(** The error of the format check, line 145. *)
Definition unsupported_format (output_format : string) : Py.exn :=
  Py.ValueError ("Format " +:+ output_format +:+ " not supported").

(** The [try] block of [convert_audio], lines 143-172. *)
Definition convert_audio_body
    (audio_chunk : AudioChunk float) (sample_rate : Z) (output_format : string)
    (speed : Q) (chunk_text : string) (is_first_chunk is_last_chunk : bool)
    (normalizer : option AudioNormalizer)
    : M (list Byte.byte * AudioChunk Z) :=
  if negb (bool_decide (output_format ∈ SUPPORTED_FORMATS))
  then raise (unsupported_format output_format)
  else
    let* audio_chunk :=
      lift (prepare audio_chunk speed chunk_text is_last_chunk normalizer) in
    let key := writer_key output_format sample_rate in
    let* w := obtain_writer output_format sample_rate is_first_chunk in
    let* (w, chunk_data) := write_step key (audio audio_chunk) w in
    let* data := finish_step key is_last_chunk w chunk_data in
    ret (data, audio_chunk).

(** The error that the handler raises, lines 176-178. *)
Definition conversion_failed (output_format : string) (e : Py.exn) : Py.exn :=
  Py.ValueError
    ("Failed to convert audio stream to " +:+ output_format +:+ ": " +:+ Py.str e).

(** [AudioService.convert_audio] *)
Definition convert_audio
    (audio_chunk : AudioChunk float) (sample_rate : Z) (output_format : string)
    (speed : Q) (chunk_text : string) (is_first_chunk is_last_chunk : bool)
    (normalizer : option AudioNormalizer)
    : M (list Byte.byte * AudioChunk Z) :=
  try_except
    (convert_audio_body audio_chunk sample_rate output_format speed chunk_text
       is_first_chunk is_last_chunk normalizer)
    (fun e =>
       do record (LoggedError ("Error converting audio stream to "
                               +:+ output_format +:+ ": " +:+ Py.str e)) then
       raise (conversion_failed output_format e)).

(** *** Derived views used to state the properties *)

(** The state after the handler has logged. *)
Definition logged (s : state) (output_format : string) (e : Py.exn) : state :=
  {| _writers := _writers s;
     journal := journal s ++
       [LoggedError ("Error converting audio stream to " +:+ output_format
                     +:+ ": " +:+ Py.str e)] |}.

(** What the handler makes of the outcome of the [try] block. *)
Definition handled {A} (output_format : string) (out : state * Py.result A)
    : state * Py.result A :=
  match out with
  | (s, inr a) => (s, inr a)
  | (s, inl e) => (logged s output_format e, inl (conversion_failed output_format e))
  end.

(** Lines 154-172 for an already prepared chunk. *)
Definition encode (audio_chunk : AudioChunk Z) (sample_rate : Z)
    (output_format : string) (is_first_chunk is_last_chunk : bool)
    : M (list Byte.byte * AudioChunk Z) :=
  fun s =>
    let key := writer_key output_format sample_rate in
    match obtain_writer output_format sample_rate is_first_chunk s with
    | (s1, inl e) => (s1, inl e)
    | (s1, inr w) =>
        match write_step key (audio audio_chunk) w s1 with
        | (s2, inl e) => (s2, inl e)
        | (s2, inr (w2, chunk_data)) =>
            match finish_step key is_last_chunk w2 chunk_data s2 with
            | (s3, inl e) => (s3, inl e)
            | (s3, inr data) => (s3, inr (data, audio_chunk))
            end
        end
    end.

End Convert.

(** Events of one kind in a stretch of the journal. *)
Definition is_construction (ev : event) : bool :=
  match ev with Constructed _ _ _ => true | _ => false end.
Definition is_finalization (ev : event) : bool :=
  match ev with FinalizeRequested _ => true | _ => false end.
Definition is_write (ev : event) : bool :=
  match ev with WriteRequested _ _ => true | _ => false end.

Definition constructions (evs : list event) : nat :=
  length (List.filter is_construction evs).
Definition finalizations (evs : list event) : nat :=
  length (List.filter is_finalization evs).
Definition writes (evs : list event) : nat :=
  length (List.filter is_write evs).

End Service.

(** ** Concrete configurations and collaborators used in the examples *)

Module Examples.

(** A configuration with a 1 ms fixed trim, a 410 ms dynamic pad and a
    comma that doubles the pad. *)
Definition settings : Settings :=
  {| gap_trim_ms := 1;
     dynamic_gap_trim_padding_ms := 410;
     dynamic_gap_trim_padding_char_multiplier := {[ "," := 2%Q ]} |}.

(** The same with the fixed trim switched off. *)
Definition settings_no_gap_trim : Settings :=
  {| gap_trim_ms := 0;
     dynamic_gap_trim_padding_ms := 410;
     dynamic_gap_trim_padding_char_multiplier := {[ "," := 2%Q ]} |}.

(** A writer that remembers the samples it was given and emits one byte per
    sample. *)
Definition recording_writer : StreamingAudioWriter :=
  {| writer := list Z;
     writer_init := fun _ _ => inr [];
     write_chunk := fun w samples =>
       (w ++ samples, inr (map (fun _ => Byte.x2a) samples));
     write_chunk_finalize := fun w => (w, inr [Byte.x00]) |}.

(** A writer whose encoder rejects every write; the writer counts them. *)
Definition failing_writer : StreamingAudioWriter :=
  {| writer := nat;
     writer_init := fun _ _ => inr 0%nat;
     write_chunk := fun w _ => (S w, inl (Py.CollaboratorError "encoder error"));
     write_chunk_finalize := fun w => (w, inr []) |}.

(** A writer whose encoder fails to flush. *)
Definition failing_finalizer : StreamingAudioWriter :=
  {| writer := nat;
     writer_init := fun _ _ => inr 0%nat;
     write_chunk := fun w _ => (S w, inr [Byte.x2a]);
     write_chunk_finalize := fun w =>
       (w, inl (Py.CollaboratorError "flush error")) |}.

Definition idle {W : StreamingAudioWriter} : Service.state :=
  {| Service._writers := ∅; Service.journal := [] |}.

(** One loud sample followed by silence, 1300 samples in all. *)
Definition click : list Z := 1000 :: repeat 0 1299.

(** Silence, then a single strongly negative sample at index 1201. *)
Definition negative_peak : list Z := repeat 0 1201 ++ [-30000].

Definition half_scale : AudioChunk float :=
  {| audio := [0.5; 0.25]%float; word_timestamps := None |}.

Definition spoken : AudioChunk Z :=
  {| audio := repeat 0 1300 ++ [1000] ++ repeat 0 100;
     word_timestamps :=
       Some [ {| word := "hi"; start_time := 0; end_time := 1 # 100 |} ] |}.

End Examples.

(** ** The locator as the specification words it

    The specification speaks of samples whose _magnitude_ exceeds the
    threshold.  This reading is kept apart from the code's so that the two
    can be compared. *)

Module Spec.

Definition magnitude_above (silence_threshold_db : Z) (x : Z) : bool :=
  Normalizer.above_threshold silence_threshold_db (Z.abs x).

Definition locate_by_magnitude
    (settings : Settings) (self : AudioNormalizer)
    (audio_data : list Z) (chunk_text : string) (speed : Q)
    (silence_threshold_db : Z) (is_last_chunk : bool) : option (Z * Z) :=
  let loud := magnitude_above silence_threshold_db in
  match Normalizer.scan_up loud audio_data 0,
        Normalizer.scan_down loud audio_data (length audio_data),
        Normalizer.trailing_pad
          (Normalizer.samples_to_pad_end settings self
             (Normalizer.pad_multiplier settings chunk_text) is_last_chunk)
          speed with
  | Some first_loud, Some last_loud, inr trailing_pad =>
      Some (Z.max (first_loud - samples_to_pad_start self) 0,
            Z.min (last_loud + trailing_pad) (Z.of_nat (length audio_data)))
  | _, _, _ => None
  end.

End Spec.


(** ** The locator on binary64

    [Normalizer.trailing_pad] divides in exact rationals.  Python divides
    in binary64: [samples_to_pad_end / speed] is the IEEE quotient, rounded
    to nearest-even, and [math.ceil] is taken of that rounded number.  The
    two differ (at speed 1.2 the binary64 quotient of 1200 is exactly
    1000.0, the rational one is just above 1000), and the binary64 path has
    outcomes the rational one lacks: an infinite quotient and NaN make
    [math.ceil] raise.  This module follows the code on binary64, with the
    speed an [int] or a [float] as the caller passes it; IEEE division is
    the Standard Library's [SFdiv] at precision 53. *)

Module Binary64.

(** The speed as Python holds it. *)
Inductive number : Type :=
  | Int (z : Z)
  | Float (f : float).

(** An [int] as sign, magnitude and exponent 0. *)
Definition integer (z : Z) : spec_float :=
  match z with
  | 0 => S754_zero false
  | Z.pos p => S754_finite false p 0
  | Z.neg p => S754_finite true p 0
  end.

(** The rational a finite binary64 number stands for; [None] for the
    infinities and NaN. *)
Definition value (x : spec_float) : option Q :=
  match x with
  | S754_zero _ => Some 0%Q
  | S754_finite s m e =>
      Some (inject_Z (if s then Z.neg m else Z.pos m) * 2 ^ e)%Q
  | S754_infinity _ | S754_nan => None
  end.

(** [float(z)] as the division does it for an [int] operand next to a
    [float] one ([PyLong_AsDouble]): the nearest binary64 number, ties to
    even; an [int] beyond the range raises. *)
Definition of_int (z : Z) : Py.result spec_float :=
  match binary_normalize prec emax z 0 false with
  | S754_infinity _ =>
      inl (Py.OverflowError "int too large to convert to float")
  | x => inr x
  end.

(** [a / b] for an [int] [a].  With an [int] divisor the quotient of the two
    integers is rounded once ([long_true_divide]); with a [float] divisor
    [a] is converted first, then the zero test, then the IEEE division. *)
Definition truediv (a : Z) (b : number) : Py.result spec_float :=
  match b with
  | Int z =>
      if z =? 0 then inl (Py.ZeroDivisionError "division by zero")
      else
        match SFdiv prec emax (integer a) (integer z) with
        | S754_infinity _ =>
            inl (Py.OverflowError
                   "integer division result too large for a float")
        | q => inr q
        end
  | Float f =>
      match of_int a with
      | inl e => inl e
      | inr x =>
          if PrimFloat.is_zero f
          then inl (Py.ZeroDivisionError "float division by zero")
          else inr (SFdiv prec emax x (Prim2SF f))
      end
  end.

(** [math.ceil(x)] for a [float] [x]. *)
Definition ceil (x : spec_float) : Py.result Z :=
  match x with
  | S754_zero _ => inr 0
  | S754_finite s m e =>
      inr (if 0 <=? e
           then (if s then - (Z.pos m * 2 ^ e) else Z.pos m * 2 ^ e)
           else if s then - Z.shiftr (Z.pos m) (- e)
                else - Z.shiftr (Z.neg m) (- e))
  | S754_infinity _ =>
      inl (Py.OverflowError "cannot convert float infinity to integer")
  | S754_nan => inl (Py.ValueError "cannot convert float NaN to integer")
  end.

(** The pad that line 73 adds to the last loud index:
    [math.ceil(samples_to_pad_end / speed)]. *)
Definition trailing_pad (samples_to_pad_end : Z) (speed : number)
    : Py.result Z :=
  match truediv samples_to_pad_end speed with
  | inl e => inl e
  | inr q => ceil q
  end.

(** [AudioNormalizer.find_first_last_non_silent] *)
Definition find_first_last_non_silent
    (settings : Settings) (self : AudioNormalizer)
    (audio_data : list Z) (chunk_text : string) (speed : number)
    (silence_threshold_db : Z) (is_last_chunk : bool) : Py.result (Z * Z) :=
  let pad_multiplier := Normalizer.pad_multiplier settings chunk_text in
  let samples_to_pad_end :=
    Normalizer.samples_to_pad_end settings self pad_multiplier is_last_chunk in
  let loud := Normalizer.above_threshold silence_threshold_db in
  let non_silent_index_start := Normalizer.scan_up loud audio_data 0 in
  let non_silent_index_end :=
    Normalizer.scan_down loud audio_data (length audio_data) in
  let len := Z.of_nat (length audio_data) in
  match non_silent_index_start, non_silent_index_end with
  | Some first, Some last =>
      match trailing_pad samples_to_pad_end speed with
      | inl e => inl e
      | inr pad =>
          inr (Z.max (first - samples_to_pad_start self) 0,
               Z.min (last + pad) len)
      end
  | _, _ => inr (0, len)
  end.

(** [AudioService.trim_audio] *)
Definition trim_audio
    (settings : Settings) (audio_chunk : AudioChunk Z) (chunk_text : string)
    (speed : number) (is_last_chunk : bool)
    (normalizer : option AudioNormalizer) : Py.result (AudioChunk Z) :=
  let normalizer :=
    match normalizer with Some n => n | None => Normalizer.init settings end in
  let audio := Service.trim_ends normalizer (audio audio_chunk) in
  match find_first_last_non_silent settings normalizer audio
          chunk_text speed Normalizer.default_silence_threshold_db
          is_last_chunk with
  | inl e => inl e
  | inr (start_index, end_index) =>
      inr {| audio := Py.slice audio start_index end_index;
             word_timestamps :=
               match word_timestamps audio_chunk with
               | Some l => Some (map (Service.rebase start_index) l)
               | None => None
               end |}
  end.

(** [speed > 0] *)
Definition is_positive (speed : number) : bool :=
  match speed with
  | Int z => 0 <? z
  | Float f => (0 <? f)%float
  end.

End Binary64.

(** ** [normalize] on numpy arrays

    [Normalizer.normalize] takes the buffer as a list of binary64 numbers.
    The arrays the engine produces are float32, and numpy computes in the
    array's own type: in [audio_data * 32767] the Python [int] takes the
    array's dtype and each product is rounded once to that dtype.  This
    module has the dtype, and has the arrays as objects in a heap, so that
    what the method does to the arrays it is handed can be stated. *)

Module Ndarray.

Inductive dtype : Type := float32 | float64.

(** A float array.  An element of a float32 array is held as the binary64
    number of the same value. *)
Record array : Type := {
  dtype_of : dtype;
  data : list float
}.

(** The arrays alive, by address; addresses below [allocated] are in use. *)
Record heap : Type := {
  objects : nat -> array;
  allocated : nat
}.

(** A numpy operation returns a new array. *)
Definition new (a : array) (h : heap) : heap * nat :=
  ({| objects := fun r => if (r =? allocated h)%nat then a else objects h r;
      allocated := S (allocated h) |},
   allocated h).

(** [x * y] on one element in the array's dtype: the IEEE product at 24
    bits of precision for float32, at 53 bits for float64. *)
Definition multiply (dt : dtype) (x y : float) : float :=
  match dt with
  | float32 => SF2Prim (SFmul 24 128 (Prim2SF x) (Prim2SF y))
  | float64 => (x * y)%float
  end.

(** [AudioNormalizer.normalize], line by line: the length test, then
    [audio_data * 32767], [np.clip(..., -32768, 32767)] and
    [.astype(np.int16)], each a new array; the bounds and the factor are
    exact in either dtype.  The int16 array is returned by value. *)
Definition normalize (self : AudioNormalizer) (audio_data : nat) (h : heap)
    : heap * Py.result (list Z) :=
  let a := objects h audio_data in
  if (length (data a) =? 0)%nat
  then (h, inl (Py.ValueError "Empty audio data"))
  else
    let '(h, scaled) :=
      new {| dtype_of := dtype_of a;
             data := map (fun x => multiply (dtype_of a) x 32767) (data a) |}
          h in
    let '(h, clipped) :=
      new {| dtype_of := dtype_of a;
             data := map (fun x => Np.clip x (-32768) 32767)
                         (data (objects h scaled)) |}
          h in
    (h, inr (map Np.astype_int16 (data (objects h clipped)))).

End Ndarray.

(** ** The sample formula as the specification words it

    Scale, clamp to [-32768, 32767], truncate to an integer: on the value
    of the scaled sample, with the clamp of the extended reals for the
    infinities.  NaN has no value to clamp; its conversion is what the
    hardware gives, 0. *)

Module NormalizeSpec.

Definition clamp (lo hi v : Q) : Q := Qmin hi (Qmax lo v).

Definition clamp_truncate (scaled : spec_float) : Z :=
  match scaled with
  | S754_nan => 0
  | S754_infinity s => if s then -32768 else 32767
  | S754_zero _ => 0
  | S754_finite s m e =>
      Py.int (clamp (-32768) 32767
                (inject_Z (if s then Z.neg m else Z.pos m) * 2 ^ e))
  end.

End NormalizeSpec.

Module NdarrayExamples.

Import Ndarray.

(** A heap with one float32 array of two samples at address 0; the second
    sample is [0x1.a97752p-1], whose product with 32767 rounds up to 27229
    in float32 and stays below it in binary64. *)
Definition one_array (dt : dtype) : heap :=
  {| objects := fun _ =>
       {| dtype_of := dt; data := [0.5; 0x1.a97752p-1]%float |};
     allocated := 1 |}.

End NdarrayExamples.

(** ** Blank text *)

Module Text.

(** Every character of the string is one that [str.strip] removes. *)
Fixpoint blank (s : string) : bool :=
  match s with
  | EmptyString => true
  | String c s' => Py.isspace c && blank s'
  end.

End Text.

(** ** The captioned-speech endpoint ([api/src/routers/captions.py])

    The handler is a function of the parsed request body and of what its
    collaborators do: the freshly constructed [KokoroV1] backend, the
    identifier that [uuid.uuid4] draws, and the file system.  File system
    calls are taken to succeed; paths are joined as on POSIX. *)

Module Captions.

(** A parsed JSON value. *)
#[local] Unset Elimination Schemes.
Inductive json : Type :=
  | JNull
  | JBool (b : bool)
  | JNumber (q : Q)
  | JString (s : string)
  | JArray (items : list json)
  | JObject (members : list (string * json)).
#[local] Set Elimination Schemes.

(** Python truthiness of a parsed JSON value ([not x] is its negation). *)
Definition truthy (v : json) : bool :=
  match v with
  | JNull => false
  | JBool b => b
  | JNumber q => negb (Qeq_bool q 0)
  | JString s => negb (String.eqb s "")
  | JArray items => match items with [] => false | _ => true end
  | JObject members => match members with [] => false | _ => true end
  end.

(** [d.get(key, default)] on the dict that [json.loads] builds from the
    members of an object: a repeated key keeps its last value. *)
Fixpoint get (members : list (string * json)) (key : string) (default : json)
    : json :=
  match members with
  | [] => default
  | (k, v) :: rest =>
      if String.eqb k key then get rest key v else get rest key default
  end.

(** What a file holds: raw bytes, or the text that [json.dump] writes,
    represented by the value dumped. *)
Inductive content : Type :=
  | Binary (data : list Byte.byte)
  | JsonDump (value : json).

(** The file system and the log, as far as the handler touches them. *)
Record world : Type := {
  directories : gset string;
  files : gmap string content;
  log : list string
}.

(** [os.makedirs(path, exist_ok=True)] *)
Definition makedirs (path : string) (w : world) : world :=
  {| directories := {[ path ]} ∪ directories w;
     files := files w; log := log w |}.

(** [with open(path, mode) as f: f.write(data)] *)
Definition write_file (path : string) (data : content) (w : world) : world :=
  {| directories := directories w;
     files := <[ path := data ]> (files w); log := log w |}.

(** [logger.error(msg)] *)
Definition log_error (msg : string) (w : world) : world :=
  {| directories := directories w; files := files w; log := log w ++ [msg] |}.

(** [os.path.join(a, b)] for a relative [b]. *)
Definition path_join (a b : string) : string := a +:+ "/" +:+ b.

(** A [KokoroV1()] instance as the handler sees it: whether it reports a
    loaded model, what [load_model] raises if anything, and what
    [generate] yields before it ends or raises. *)
Record Backend : Type := {
  is_loaded : bool;
  load_model : string -> option Py.exn;
  generate : json -> json -> json -> json ->
             list (AudioChunk float) * option Py.exn
}.

Record FileResponse : Type := {
  path : string;
  media_type : string;
  filename : string;
  headers : gmap string string
}.

(** How a request ends: a response, an [HTTPException], or an exception that
    the handler does not catch. *)
Inductive outcome : Type :=
  | Returned (response : FileResponse)
  | HTTPException (status_code : Z) (detail : string)
  | Uncaught (exception : string).

(** The dict appended for one timestamp, lines 71-75. *)
Definition timestamp_entry (ts : WordTimestamp) : json :=
  JObject [ ("word", JString (word ts));
            ("start_time", JNumber (start_time ts));
            ("end_time", JNumber (end_time ts)) ].

(** One turn of the [async for] loop, lines 66-75, on the two lists. *)
Definition collect (return_timestamps : json)
    (acc : list (list float) * list json) (chunk : AudioChunk float)
    : list (list float) * list json :=
  let '(audio_chunks, combined_timestamps) := acc in
  (audio_chunks ++ [audio chunk],
   if truthy return_timestamps
   then match word_timestamps chunk with
        | Some l =>
            fold_left (fun combined ts => combined ++ [timestamp_entry ts])
              l combined_timestamps
        | None => combined_timestamps
        end
   else combined_timestamps).

(** [captioned_speech].  [init_headers path media_type filename] stands for
    the headers that the library's [FileResponse(path, media_type=...,
    filename=...)] carries once constructed (content type, content
    disposition and whatever else the library sets); the handler only adds
    to them. *)
Definition captioned_speech
    (backend : Backend) (model_path unique_id : string)
    (init_headers : string -> string -> string -> gmap string string)
    (payload : json) (w : world) : world * outcome :=
  match payload with
  | JObject members =>
      let text := get members "input" JNull in
      let voice := get members "voice" JNull in
      let speed := get members "speed" (JNumber 1) in
      let return_timestamps := get members "return_timestamps" (JBool false) in
      if negb (truthy text) || negb (truthy voice)
      then (w, HTTPException 400 "Input and voice fields are required.")
      else
        let base_dir := "temp_files" in
        let w := makedirs base_dir w in
        match (if negb (is_loaded backend)
               then load_model backend model_path else None) with
        | Some e =>
            (log_error ("Failed to load model: " +:+ Py.str e) w,
             HTTPException 500 "Model failed to load.")
        | None =>
            let '(chunks, raised) :=
              generate backend text voice speed return_timestamps in
            let '(audio_chunks, combined_timestamps) :=
              fold_left (collect return_timestamps) chunks ([], []) in
            match raised with
            | Some e =>
                (log_error ("TTS generation failed: " +:+ Py.str e) w,
                 HTTPException 500 "TTS generation failed.")
            | None =>
                let mp3_file := path_join base_dir "speech.mp3" in
                let w := write_file mp3_file
                           (Binary (list_byte_of_string "FAKE_MP3_DATA")) w in
                let json_file :=
                  if truthy return_timestamps
                  then path_join base_dir (unique_id +:+ ".json") else "" in
                let w :=
                  if truthy return_timestamps
                  then write_file json_file
                         (JsonDump (JArray combined_timestamps)) w
                  else w in
                let response :=
                  {| path := mp3_file; media_type := "audio/mpeg";
                     filename := "speech.mp3";
                     headers :=
                       init_headers mp3_file "audio/mpeg" "speech.mp3" |} in
                let response :=
                  if truthy return_timestamps
                     && negb (String.eqb json_file "")
                  then {| path := path response;
                          media_type := media_type response;
                          filename := filename response;
                          headers := <[ "x_timestamp_path" := json_file ]>
                                       (headers response) |}
                  else response in
                (w, Returned response)
            end
        end
  | _ => (w, Uncaught "AttributeError")
  end.

End Captions.

(** Requests and backends used in the examples of the endpoint. *)

Module CaptionExamples.

Import Captions.

Definition empty_world : world :=
  {| directories := ∅; files := ∅; log := [] |}.

Definition first_chunk : AudioChunk float :=
  {| audio := [0.5]%float;
     word_timestamps :=
       Some [ {| word := "Hello"; start_time := 0; end_time := 3 # 10 |} ] |}.

Definition second_chunk : AudioChunk float :=
  {| audio := [0.25]%float;
     word_timestamps :=
       Some [ {| word := "world"; start_time := 0; end_time := 4 # 10 |} ] |}.

(** A backend that has to load its model first and then yields two chunks. *)
Definition working_backend : Backend :=
  {| is_loaded := false;
     load_model := fun _ => None;
     generate := fun _ _ _ _ => ([first_chunk; second_chunk], None) |}.

(** A backend whose generation raises after the first chunk. *)
Definition breaking_backend : Backend :=
  {| is_loaded := true;
     load_model := fun _ => None;
     generate := fun _ _ _ _ =>
       ([first_chunk], Some (Py.CollaboratorError "out of memory")) |}.

(** Headers of a freshly built [FileResponse], as the library sets
    them from the media type and the file name. *)
Definition quoted (s : string) : string :=
  String (Ascii.ascii_of_nat 34) s +:+ String (Ascii.ascii_of_nat 34) EmptyString.

Definition library_headers (path media_type filename : string)
    : gmap string string :=
  {[ "content-type" := media_type;
     "accept-ranges" := "bytes";
     "content-disposition" := "attachment; filename=" +:+ quoted filename ]}.

Definition full_request : list (string * json) :=
  [ ("input", JString "Hello world"); ("voice", JString "af_heart");
    ("return_timestamps", JBool true) ].

Definition request_without_input : list (string * json) :=
  [ ("voice", JString "af_heart"); ("input", JString "") ].

End CaptionExamples.
(** * Properties *)

(** ** The amplitude normaliser *)

Module NormalizeFacts.

Definition lo : float := (-32768)%float.
Definition hi : float := 32767%float.

Definition in_int16 (z : Z) : Prop := Np.int16_min <= z <= Np.int16_max.

Lemma digits2_pos_bound (m : positive) : Z.pos m < 2 ^ Z.pos (digits2_pos m).
Proof.
  induction m as [m IH | m IH |]; cbn [digits2_pos].
  - rewrite Pos2Z.inj_succ, Z.pow_succ_r by lia. lia.
  - rewrite Pos2Z.inj_succ, Z.pow_succ_r by lia. lia.
  - reflexivity.
Qed.

(** A valid binary64 mantissa has at most 53 bits. *)
Lemma valid_mantissa_bound (s : bool) (m : positive) (e : Z) :
  SpecFloat.valid_binary prec emax (S754_finite s m e) = true ->
  Z.pos m < 2 ^ 53.
Proof.
  cbn [SpecFloat.valid_binary]. unfold bounded, canonical_mantissa, fexp.
  intros Hb. apply andb_prop in Hb as [Hc _]. apply Z.eqb_eq in Hc.
  pose proof (digits2_pos_bound m) as Hd.
  assert (Z.pos (digits2_pos m) <= 53) as Hle by (unfold prec in Hc; lia).
  eapply Z.lt_le_trans; [exact Hd|].
  apply Z.pow_le_mono_r; lia.
Qed.

Lemma shiftr_small (m : positive) (k n : Z) :
  0 <= n -> 0 <= k -> Z.pos m < 2 ^ (n + k) -> 0 <= Z.shiftr (Z.pos m) k < 2 ^ n.
Proof.
  intros Hn Hk Hm. rewrite Z.shiftr_div_pow2 by lia.
  assert (0 < 2 ^ k) by (apply Z.pow_pos_nonneg; lia).
  split.
  - apply Z.div_pos; lia.
  - apply Z.div_lt_upper_bound; [lia|].
    rewrite <- Z.pow_add_r by lia. now rewrite Z.add_comm.
Qed.

(** Strictly between the two clip bounds the integer part fits int16. *)
Lemma trunc_between (f : spec_float) :
  SpecFloat.valid_binary prec emax f = true ->
  SFltb (Prim2SF lo) f = true ->
  SFltb f (Prim2SF hi) = true ->
  exists z, Np.SF_trunc f = Some z /\ in_int16 z.
Proof.
  intros Hv Hlo Hhi.
  replace (Prim2SF lo) with (S754_finite true 4503599627370496 (-37)) in Hlo
    by (vm_compute; reflexivity).
  replace (Prim2SF hi) with (S754_finite false 9006924376834048 (-38)) in Hhi
    by (vm_compute; reflexivity).
  destruct f as [s | s | | s m e].
  - exists 0. split; [reflexivity | unfold in_int16, Np.int16_min, Np.int16_max; lia].
  - destruct s; discriminate.
  - discriminate.
  - pose proof (valid_mantissa_bound _ _ _ Hv) as Hm.
    unfold Np.SF_trunc. eexists. split; [reflexivity|].
    unfold in_int16, Np.int16_min, Np.int16_max.
    unfold SFltb, SFcompare in Hlo, Hhi.
    destruct s.
    + (* negative: above the lower bound *)
      clear Hhi.
      destruct (Z.compare_spec (-37) e) as [He | He | He]; try discriminate.
      * subst e. cbn [Z.leb Z.compare Z.opp].
        rewrite Pos.compare_cont_spec in Hlo. cbn [Pos.switch_Eq] in Hlo.
        destruct (Pos.compare_spec 4503599627370496 m) as [Hc | Hc | Hc];
          cbn in Hlo; try discriminate.
        apply Pos2Z.pos_lt_pos in Hc.
        pose proof (shiftr_small m 37 15 ltac:(lia) ltac:(lia)) as Hs.
        change (- -37) with 37.
        assert (Z.pos m < 2 ^ (15 + 37)) by (change (2 ^ (15 + 37)) with 4503599627370496; lia).
        specialize (Hs H). change (2 ^ 15) with 32768 in Hs. lia.
      * destruct (0 <=? e) eqn:E; [apply Z.leb_le in E; lia|].
        pose proof (shiftr_small m (- e) 15 ltac:(lia) ltac:(lia)) as Hs.
        assert (Z.pos m < 2 ^ (15 + - e)).
        { eapply Z.lt_le_trans; [exact Hm|]. apply Z.pow_le_mono_r; lia. }
        specialize (Hs H). change (2 ^ 15) with 32768 in Hs. lia.
    + (* positive: below the upper bound *)
      clear Hlo.
      destruct (Z.compare_spec e (-38)) as [He | He | He]; try discriminate.
      * subst e.
        rewrite Pos.compare_cont_spec in Hhi. cbn [Pos.switch_Eq] in Hhi.
        destruct (Pos.compare_spec m 9006924376834048) as [Hc | Hc | Hc];
          cbn in Hhi; try discriminate.
        apply Pos2Z.pos_lt_pos in Hc.
        cbn [Z.leb Z.compare Z.opp].
        change (- -38) with 38.
        rewrite Z.shiftr_div_pow2 by lia.
        assert (0 <= Z.pos m / 2 ^ 38) by (apply Z.div_pos; lia).
        assert (Z.pos m / 2 ^ 38 < 32767).
        { apply Z.div_lt_upper_bound; [lia|].
          change (2 ^ 38 * 32767) with 9006924376834048. lia. }
        lia.
      * destruct (0 <=? e) eqn:E; [apply Z.leb_le in E; lia|].
        pose proof (shiftr_small m (- e) 14 ltac:(lia) ltac:(lia)) as Hs.
        assert (Z.pos m < 2 ^ (14 + - e)).
        { eapply Z.lt_le_trans; [exact Hm|]. apply Z.pow_le_mono_r; lia. }
        specialize (Hs H). change (2 ^ 14) with 16384 in Hs. lia.
Qed.

Lemma wrap_int16_id (z : Z) : in_int16 z -> Np.wrap_int16 z = z.
Proof.
  unfold in_int16, Np.wrap_int16, Np.int16_min, Np.int16_max. intros Hz.
  rewrite Z.mod_small by lia. lia.
Qed.

(** What the clip leaves: NaN, one of the bounds, or the value itself when
    it lies strictly between them. *)
Lemma clip_cases (x : float) :
  let y := Np.clip x lo hi in
  Prim2SF y = S754_nan \/ y = lo \/ y = hi \/
  (y = x /\ PrimFloat.ltb lo x = true /\ PrimFloat.ltb x hi = true).
Proof.
  cbv zeta. unfold Np.clip, Np.npy_max, Np.npy_min.
  destruct (is_nan x) eqn:Hnan.
  - rewrite Hnan. left. unfold Prim2SF. now rewrite Hnan.
  - destruct (PrimFloat.ltb lo x) eqn:Hlo.
    + rewrite Hnan. destruct (PrimFloat.ltb x hi) eqn:Hhi.
      * right. right. right. auto.
      * right. right. left. reflexivity.
    + right. left. vm_compute. reflexivity.
Qed.

(** The conversion after the clip never wraps and never leaves int16. *)
Lemma astype_after_clip (x : float) :
  let y := Np.clip x lo hi in
  in_int16 (Np.astype_int16 y) /\
  Np.astype_int16 y = match Np.SF_trunc (Prim2SF y) with Some z => z | None => 0 end.
Proof.
  cbv zeta. destruct (clip_cases x) as [Hn | [-> | [-> | (Hy & Hlo & Hhi)]]].
  - unfold Np.astype_int16. rewrite Hn. cbn.
    split; [unfold in_int16, Np.int16_min, Np.int16_max; lia | reflexivity].
  - split; [vm_compute; split; discriminate | vm_compute; reflexivity].
  - split; [vm_compute; split; discriminate | vm_compute; reflexivity].
  - rewrite Hy. rewrite ltb_spec in Hlo, Hhi.
    destruct (trunc_between (Prim2SF x) (Prim2SF_valid x) Hlo Hhi) as (z & Hz & Hr).
    unfold Np.astype_int16. rewrite Hz, (wrap_int16_id z Hr). auto.
Qed.

End NormalizeFacts.

(** ** The silence locator *)

Module LocatorFacts.

Import Normalizer.

(** First and last index whose sample the code counts as loud. *)
Definition first_loud (loud : Z -> bool) (audio_data : list Z) (i : Z) : Prop :=
  0 <= i /\
  (exists a, audio_data !! Z.to_nat i = Some a /\ loud a = true) /\
  forall j a, (j < Z.to_nat i)%nat -> audio_data !! j = Some a -> loud a = false.

Definition last_loud (loud : Z -> bool) (audio_data : list Z) (i : Z) : Prop :=
  0 <= i /\
  (exists a, audio_data !! Z.to_nat i = Some a /\ loud a = true) /\
  forall j a, (Z.to_nat i < j)%nat -> audio_data !! j = Some a -> loud a = false.

Definition silent (loud : Z -> bool) (audio_data : list Z) : Prop :=
  forall j a, audio_data !! j = Some a -> loud a = false.

Lemma scan_up_none loud l X :
  scan_up loud l X = None <-> silent loud l.
Proof.
  revert X. induction l as [|a l IH]; intros X; cbn [scan_up].
  - split; [|reflexivity]. intros _ j a Hj. discriminate.
  - destruct (loud a) eqn:Ha.
    + split; [discriminate|]. intros Hs. specialize (Hs 0%nat a eq_refl). congruence.
    + rewrite IH. split.
      * intros Hs [|j] b Hj; [cbn in Hj; congruence | exact (Hs j b Hj)].
      * intros Hs j b Hj. exact (Hs (S j) b Hj).
Qed.

Lemma scan_up_some loud l X i :
  scan_up loud l X = Some i ->
  X <= i /\
  (exists a, l !! Z.to_nat (i - X) = Some a /\ loud a = true) /\
  forall j a, (j < Z.to_nat (i - X))%nat -> l !! j = Some a -> loud a = false.
Proof.
  revert X. induction l as [|a l IH]; intros X; cbn [scan_up]; [discriminate|].
  destruct (loud a) eqn:Ha.
  - intros [= <-]. rewrite Z.sub_diag. split; [lia|]. split; [eauto|].
    intros j b Hj. cbn in Hj. lia.
  - intros Hs. destruct (IH _ Hs) as (Hle & (b & Hb & Hl) & Hbefore).
    assert (Z.to_nat (i - X) = S (Z.to_nat (i - (X + 1)))) as -> by lia.
    split; [lia|]. split; [exists b; auto|].
    intros [|j] c Hj Hc; [cbn in Hc; congruence|].
    apply (Hbefore j c); [lia | exact Hc].
Qed.

Lemma scan_up_first loud l i :
  scan_up loud l 0 = Some i -> first_loud loud l i.
Proof.
  intros Hs. apply scan_up_some in Hs. rewrite Z.sub_0_r in Hs.
  exact Hs.
Qed.

Lemma scan_down_none loud l n :
  scan_down loud l n = None <->
  forall j a, (j < n)%nat -> l !! j = Some a -> loud a = false.
Proof.
  induction n as [|n IH]; cbn [scan_down].
  - split; [|reflexivity]. intros _ j a Hj. lia.
  - destruct (l !! n) as [a|] eqn:Hn.
    + destruct (loud a) eqn:Ha.
      * split; [discriminate|]. intros Hs.
        specialize (Hs n a (Nat.lt_succ_diag_r n) Hn). congruence.
      * rewrite IH. split.
        -- intros Hs j b Hj Hb. destruct (decide (j = n)) as [-> | Hne].
           ++ congruence.
           ++ apply (Hs j b); [lia | exact Hb].
        -- intros Hs j b Hj. apply Hs. lia.
    + rewrite IH. split.
      * intros Hs j b Hj Hb. destruct (decide (j = n)) as [-> | Hne].
        -- congruence.
        -- apply (Hs j b); [lia | exact Hb].
      * intros Hs j b Hj. apply Hs. lia.
Qed.

Lemma scan_down_some loud l n i :
  scan_down loud l n = Some i ->
  0 <= i /\ (Z.to_nat i < n)%nat /\
  (exists a, l !! Z.to_nat i = Some a /\ loud a = true) /\
  forall j a, (Z.to_nat i < j < n)%nat -> l !! j = Some a -> loud a = false.
Proof.
  induction n as [|n IH]; cbn [scan_down]; [discriminate|].
  destruct (l !! n) as [a|] eqn:Hn.
  - destruct (loud a) eqn:Ha.
    + intros [= <-]. rewrite Nat2Z.id. split; [lia|]. split; [lia|].
      split; [eauto|]. intros j b Hj. lia.
    + intros Hs. destruct (IH Hs) as (H0 & Hlt & Hex & Hafter).
      split; [exact H0|]. split; [lia|]. split; [exact Hex|].
      intros j b Hj Hb. destruct (decide (j = n)) as [-> | Hne].
      * congruence.
      * apply (Hafter j b); [lia | exact Hb].
  - intros Hs. destruct (IH Hs) as (H0 & Hlt & Hex & Hafter).
    split; [exact H0|]. split; [lia|]. split; [exact Hex|].
    intros j b Hj Hb. destruct (decide (j = n)) as [-> | Hne].
    + congruence.
    + apply (Hafter j b); [lia | exact Hb].
Qed.

Lemma scan_down_last loud l i :
  scan_down loud l (length l) = Some i -> last_loud loud l i.
Proof.
  intros Hs. destruct (scan_down_some _ _ _ _ Hs) as (H0 & Hlt & Hex & Hafter).
  split; [exact H0|]. split; [exact Hex|].
  intros j a Hj Ha. apply (Hafter j a); [|exact Ha].
  split; [exact Hj|]. apply lookup_lt_Some in Ha. exact Ha.
Qed.

(** The two predicates determine their index. *)
Lemma first_loud_unique loud l i j :
  first_loud loud l i -> first_loud loud l j -> i = j.
Proof.
  intros (Hi0 & (a & Ha & Hla) & Hbi) (Hj0 & (b & Hb & Hlb) & Hbj).
  destruct (Z.lt_trichotomy i j) as [Hlt | [Heq | Hgt]]; [|exact Heq|].
  - specialize (Hbj (Z.to_nat i) a ltac:(lia) Ha). congruence.
  - specialize (Hbi (Z.to_nat j) b ltac:(lia) Hb). congruence.
Qed.

Lemma last_loud_unique loud l i j :
  last_loud loud l i -> last_loud loud l j -> i = j.
Proof.
  intros (Hi0 & (a & Ha & Hla) & Hbi) (Hj0 & (b & Hb & Hlb) & Hbj).
  destruct (Z.lt_trichotomy i j) as [Hlt | [Heq | Hgt]]; [|exact Heq|].
  - specialize (Hbi (Z.to_nat j) b ltac:(lia) Hb). congruence.
  - specialize (Hbj (Z.to_nat i) a ltac:(lia) Ha). congruence.
Qed.

(** Both scans agree on whether the buffer is silent. *)
Lemma scans_agree loud l :
  scan_up loud l 0 = None <-> scan_down loud l (length l) = None.
Proof.
  rewrite scan_up_none, scan_down_none. unfold silent. split.
  - intros Hs j a _ Ha. exact (Hs j a Ha).
  - intros Hs j a Ha. apply (Hs j a); [|exact Ha].
    apply lookup_lt_Some in Ha. exact Ha.
Qed.

Lemma scan_up_first_iff loud l i :
  scan_up loud l 0 = Some i <-> first_loud loud l i.
Proof.
  split; [apply scan_up_first|].
  intros Hf. destruct (scan_up loud l 0) as [k|] eqn:Hk.
  - f_equal. apply (first_loud_unique loud l); [apply scan_up_first; exact Hk | exact Hf].
  - apply scan_up_none in Hk. destruct Hf as (_ & (a & Ha & Hl) & _).
    specialize (Hk _ _ Ha). congruence.
Qed.

Lemma scan_down_last_iff loud l i :
  scan_down loud l (length l) = Some i <-> last_loud loud l i.
Proof.
  split; [apply scan_down_last|].
  intros Hf. destruct (scan_down loud l (length l)) as [k|] eqn:Hk.
  - f_equal. apply (last_loud_unique loud l); [apply scan_down_last; exact Hk | exact Hf].
  - apply scans_agree, scan_up_none in Hk. destruct Hf as (_ & (a & Ha & Hl) & _).
    specialize (Hk _ _ Ha). congruence.
Qed.

Lemma first_le_last loud l i j :
  first_loud loud l i -> last_loud loud l j -> i <= j < Z.of_nat (length l).
Proof.
  intros (Hi0 & (a & Ha & Hla) & Hbi) (Hj0 & (b & Hb & Hlb) & Hbj).
  split.
  - destruct (Z.le_gt_cases i j) as [Hle | Hgt]; [exact Hle|].
    specialize (Hbi (Z.to_nat j) b ltac:(lia) Hb). congruence.
  - apply lookup_lt_Some in Hb. lia.
Qed.

(** The default threshold of -45 dB lies strictly between 184 and 185. *)
Lemma above_default_threshold (x : Z) :
  above_threshold default_silence_threshold_db x = (185 <=? x).
Proof.
  unfold above_threshold, default_silence_threshold_db.
  cbn [Z.leb Z.compare Z.opp].
  destruct (Z.leb_spec 185 x) as [Hx | Hx].
  - replace (0 <? x) with true by (symmetry; apply Z.ltb_lt; lia).
    cbn [andb]. apply Z.ltb_lt.
    assert (185 ^ 20 <= x ^ 20) as Hp by (apply Z.pow_le_mono_l; lia).
    eapply Z.lt_le_trans; [|apply Z.mul_le_mono_nonneg_r; [|exact Hp]].
    + vm_compute. reflexivity.
    + vm_compute. discriminate.
  - destruct (Z.ltb_spec 0 x) as [H0 | H0]; [|reflexivity].
    cbn [andb]. apply Z.ltb_ge.
    assert (x ^ 20 <= 184 ^ 20) as Hp by (apply Z.pow_le_mono_l; lia).
    etransitivity; [apply Z.mul_le_mono_nonneg_r; [|exact Hp]|].
    + vm_compute. discriminate.
    + vm_compute. discriminate.
Qed.

(** A sample whose magnitude is below the threshold is below it itself. *)
Lemma above_threshold_abs db x :
  above_threshold db x = true -> above_threshold db (Z.abs x) = true.
Proof.
  unfold above_threshold. intros Hx.
  destruct (andb_prop _ _ Hx) as [H0 _].
  apply Z.ltb_lt in H0. rewrite Z.abs_eq by lia. exact Hx.
Qed.

End LocatorFacts.

Module PadFacts.

Import Normalizer LocatorFacts.

Lemma init_samples_to_pad_start settings :
  samples_to_pad_start (init settings) = 1200.
Proof. reflexivity. Qed.

Lemma init_sample_rate settings : sample_rate (init settings) = 24000.
Proof. reflexivity. Qed.

Lemma truediv_nonzero (a b : Q) :
  ~ (b == 0)%Q -> Py.truediv a b = inr (a / b)%Q.
Proof.
  intros Hb. unfold Py.truediv.
  destruct (Qeq_bool b 0) eqn:E; [|reflexivity].
  apply Qeq_bool_iff in E. contradiction.
Qed.

Lemma truediv_zero (a b : Q) :
  (b == 0)%Q -> Py.truediv a b = inl (Py.ZeroDivisionError "division by zero").
Proof.
  intros Hb. unfold Py.truediv. apply Qeq_bool_iff in Hb. now rewrite Hb.
Qed.

Lemma trailing_pad_nonzero (pad_end : Z) (speed : Q) :
  ~ (speed == 0)%Q ->
  trailing_pad pad_end speed = inr (Py.ceil (inject_Z pad_end / speed)).
Proof.
  intros Hs. unfold trailing_pad. now rewrite truediv_nonzero.
Qed.

Lemma ceil_nonneg (q : Q) : (0 <= q)%Q -> 0 <= Py.ceil q.
Proof.
  intros Hq. unfold Py.ceil.
  change 0 with (Qceiling 0). apply Qceiling_resp_le. exact Hq.
Qed.

Lemma trailing_pad_nonneg (pad_end : Z) (speed : Q) :
  0 <= pad_end -> (0 < speed)%Q ->
  exists pad, trailing_pad pad_end speed = inr pad /\ 0 <= pad.
Proof.
  intros Hp Hs. eexists. split.
  - apply trailing_pad_nonzero. intros E. rewrite E in Hs.
    exact (Qlt_irrefl 0 Hs).
  - apply ceil_nonneg. unfold Qdiv. apply Qmult_le_0_compat.
    + change 0%Q with (inject_Z 0). rewrite <- Zle_Qle. exact Hp.
    + apply Qinv_le_0_compat. apply Qlt_le_weak. exact Hs.
Qed.

Lemma samples_to_pad_end_nonneg settings self m is_last_chunk :
  0 <= samples_to_pad_start self ->
  0 <= samples_to_pad_end settings self m is_last_chunk.
Proof.
  intros H0. unfold samples_to_pad_end. destruct is_last_chunk; cbn [negb]; lia.
Qed.

Section Locator.

Variable settings : Settings.
Variable self : AudioNormalizer.
Variables (audio_data : list Z) (chunk_text : string) (speed : Q).
Variables (silence_threshold_db : Z) (is_last_chunk : bool).

Let loud := above_threshold silence_threshold_db.
Let len := Z.of_nat (length audio_data).
Let locate :=
  find_first_last_non_silent settings self audio_data chunk_text speed
    silence_threshold_db is_last_chunk.
Let pad_end :=
  samples_to_pad_end settings self (pad_multiplier settings chunk_text)
    is_last_chunk.

Lemma locate_silent : silent loud audio_data -> locate = inr (0, len).
Proof.
  intros Hs. unfold locate, find_first_last_non_silent.
  apply scan_up_none with (X := 0) in Hs. fold loud. now rewrite Hs.
Qed.

Lemma locate_loud first last :
  first_loud loud audio_data first -> last_loud loud audio_data last ->
  locate =
    match trailing_pad pad_end speed with
    | inl e => inl e
    | inr pad =>
        inr (Z.max (first - samples_to_pad_start self) 0, Z.min (last + pad) len)
    end.
Proof.
  intros Hf Hl. unfold locate, find_first_last_non_silent.
  apply scan_up_first_iff in Hf. apply scan_down_last_iff in Hl.
  fold loud. rewrite Hf, Hl. reflexivity.
Qed.

(** Either the buffer is silent or both loud indices exist. *)
Lemma silent_or_loud :
  silent loud audio_data \/
  exists first last,
    first_loud loud audio_data first /\ last_loud loud audio_data last.
Proof.
  destruct (scan_up loud audio_data 0) as [first|] eqn:Hu.
  - right. destruct (scan_down loud audio_data (length audio_data)) as [last|] eqn:Hd.
    + exists first, last. split;
        [now apply scan_up_first_iff | now apply scan_down_last_iff].
    + apply scans_agree in Hd. congruence.
  - left. now apply scan_up_none in Hu.
Qed.

Lemma locate_bounds :
  0 <= samples_to_pad_start self -> (0 < speed)%Q ->
  exists start_index end_index,
    locate = inr (start_index, end_index) /\
    0 <= start_index <= end_index /\ end_index <= len.
Proof.
  intros Hp Hs. destruct silent_or_loud as [Hsil | (first & last & Hf & Hl)].
  - exists 0, len. rewrite (locate_silent Hsil). subst len. repeat split; lia.
  - rewrite (locate_loud first last Hf Hl).
    destruct (trailing_pad_nonneg pad_end speed) as (pad & -> & Hpad);
      [apply samples_to_pad_end_nonneg; exact Hp | exact Hs |].
    pose proof (first_le_last _ _ _ _ Hf Hl) as Hfl. fold len in Hfl.
    destruct Hf as (Hf0 & _). eexists _, _. split; [reflexivity|]. lia.
Qed.

End Locator.

(** The dynamic pad of a whole number of milliseconds, at the rate that
    [__init__] fixes: a multiplier given as a whole number scales it. *)
Lemma dynamic_pad_whole settings (d m : Z) :
  dynamic_gap_trim_padding_ms settings = inject_Z d ->
  dynamic_pad_samples settings (init settings) (inject_Z m) = 24 * d * m.
Proof.
  intros Hd. unfold dynamic_pad_samples, Py.int. rewrite Hd.
  cbn. rewrite !Z.mul_1_r.
  replace (d * 24000 * m) with (24 * d * m * 1000) by lia.
  apply Z.quot_mul. discriminate.
Qed.

End PadFacts.

(** ** The conversion orchestrator *)

Module ServiceFacts.

Import Service.

Lemma or_empty_same (data : list Byte.byte) : or_empty data = data.
Proof. destruct data; reflexivity. Qed.

(** Unfold the monad down to functions on states. *)
Ltac run_monad :=
  unfold bind, get_writers, set_writers, lift, record, ret, raise.

Section WithWriter.

Context `{StreamingAudioWriter}.
Variable settings : Settings.

Lemma convert_audio_unsupported audio_chunk sample_rate output_format speed
    chunk_text is_first_chunk is_last_chunk normalizer s :
  output_format ∉ SUPPORTED_FORMATS ->
  convert_audio settings audio_chunk sample_rate output_format speed chunk_text
    is_first_chunk is_last_chunk normalizer s =
  (logged s output_format (unsupported_format output_format),
   inl (conversion_failed output_format (unsupported_format output_format))).
Proof.
  intros Hf. unfold convert_audio, try_except, convert_audio_body.
  rewrite bool_decide_eq_false_2 by exact Hf. reflexivity.
Qed.

Lemma convert_audio_supported audio_chunk sample_rate output_format speed
    chunk_text is_first_chunk is_last_chunk normalizer s :
  output_format ∈ SUPPORTED_FORMATS ->
  convert_audio settings audio_chunk sample_rate output_format speed chunk_text
    is_first_chunk is_last_chunk normalizer s =
  handled output_format
    match prepare settings audio_chunk speed chunk_text is_last_chunk normalizer with
    | inl e => (s, inl e)
    | inr prepared =>
        encode prepared sample_rate output_format is_first_chunk is_last_chunk s
    end.
Proof.
  intros Hf. unfold convert_audio, try_except, convert_audio_body.
  rewrite bool_decide_eq_true_2 by exact Hf. cbn [negb].
  unfold bind at 1. unfold lift.
  destruct (prepare settings audio_chunk speed chunk_text is_last_chunk normalizer)
    as [e | prepared]; [reflexivity|].
  unfold encode, bind.
  destruct (obtain_writer output_format sample_rate is_first_chunk s)
    as [s1 [e | w]]; [reflexivity|].
  destruct (write_step _ _ w s1) as [s2 [e | [w2 chunk_data]]]; [reflexivity|].
  destruct (finish_step _ _ w2 chunk_data s2) as [s3 [e | data]]; reflexivity.
Qed.

Lemma obtain_writer_eq output_format sample_rate is_first_chunk s :
  obtain_writer output_format sample_rate is_first_chunk s =
  let key := writer_key output_format sample_rate in
  match (if is_first_chunk then None else _writers s !! key) with
  | Some w => (s, inr w)
  | None =>
      match writer_init output_format sample_rate with
      | inl e => (s, inl e)
      | inr w =>
          ({| _writers := <[key := w]> (_writers s);
              journal := journal s ++ [Constructed key output_format sample_rate] |},
           inr w)
      end
  end.
Proof.
  unfold obtain_writer, start_writer. run_monad. cbv zeta.
  destruct (_writers s !! writer_key output_format sample_rate) as [w|];
    destruct is_first_chunk;
    try destruct (writer_init output_format sample_rate); reflexivity.
Qed.

Lemma write_step_eq key samples w s :
  write_step key samples w s =
  if (0 <? length samples)%nat
  then
    let s1 := {| _writers := <[key := (write_chunk w samples).1]> (_writers s);
                 journal := journal s ++ [WriteRequested key samples] |} in
    match (write_chunk w samples).2 with
    | inl e => (s1, inl e)
    | inr chunk_data => (s1, inr ((write_chunk w samples).1, Some chunk_data))
    end
  else (s, inr (w, None)).
Proof.
  unfold write_step, on_writer. run_monad.
  destruct (0 <? length samples)%nat; [|reflexivity].
  destruct (write_chunk w samples) as [w' [e | d]]; reflexivity.
Qed.

Lemma finish_step_eq key is_last_chunk w chunk_data s :
  finish_step key is_last_chunk w chunk_data s =
  if is_last_chunk
  then
    let journal1 := journal s ++ [FinalizeRequested key] in
    match (write_chunk_finalize w).2 with
    | inl e =>
        ({| _writers := <[key := (write_chunk_finalize w).1]> (_writers s);
            journal := journal1 |}, inl e)
    | inr final_data =>
        ({| _writers :=
              delete key (<[key := (write_chunk_finalize w).1]> (_writers s));
            journal := journal1 |}, inr (or_empty final_data))
    end
  else
    match chunk_data with
    | Some chunk_data => (s, inr (or_empty chunk_data))
    | None => (s, inl unbound_chunk_data)
    end.
Proof.
  unfold finish_step, on_writer. run_monad.
  destruct is_last_chunk.
  - destruct (write_chunk_finalize w) as [w' [e | d]]; reflexivity.
  - destruct chunk_data; reflexivity.
Qed.

End WithWriter.

End ServiceFacts.

(** ** Slices and the chunk trimmer *)

Module TrimFacts.

Import Service.

Lemma slice_whole {A} (l : list A) : Py.slice l 0 (Z.of_nat (length l)) = l.
Proof.
  unfold Py.slice, Py.slice_index.
  destruct (Z.ltb_spec (Z.of_nat (length l)) 0) as [Hneg | _]; [lia|].
  cbn [Z.ltb Z.compare]. rewrite Z.min_id, Z.min_l by lia.
  rewrite Nat2Z.id. cbn [Z.to_nat drop]. apply firstn_all.
Qed.

Lemma slice_empty {A} (l : list A) : Py.slice l 0 0 = [].
Proof.
  unfold Py.slice, Py.slice_index. cbn [Z.ltb Z.compare].
  rewrite Z.min_l by lia. reflexivity.
Qed.

(** With the fixed trim at zero, [audio[0:-0]] is [audio[0:0]]. *)
Lemma trim_ends_zero normalizer (samples : list Z) :
  samples_to_trim normalizer = 0 -> samples <> [] ->
  trim_ends normalizer samples = [].
Proof.
  intros Hz Hne. unfold trim_ends. rewrite Hz.
  change (2 * 0) with 0. change (- 0) with 0.
  destruct samples as [|a l]; [congruence|].
  replace (0 <? Z.of_nat (length (a :: l))) with true
    by (symmetry; apply Z.ltb_lt; cbn [length]; lia).
  apply slice_empty.
Qed.

Lemma magnitude_silent db (l : list Z) :
  LocatorFacts.silent (Spec.magnitude_above db) l ->
  LocatorFacts.silent (Normalizer.above_threshold db) l.
Proof.
  intros Hs j a Ha. specialize (Hs j a Ha). unfold Spec.magnitude_above in Hs.
  destruct (Normalizer.above_threshold db a) eqn:E; [|reflexivity].
  apply LocatorFacts.above_threshold_abs in E. congruence.
Qed.

End TrimFacts.

(** ** Binary64 division and ceiling *)

Module Binary64Facts.

Import Binary64.

(** A number that is zero, finite or infinite with the sign bit clear. *)
Definition unsigned (x : spec_float) : Prop :=
  match x with
  | S754_zero s | S754_finite s _ _ | S754_infinity s => s = false
  | S754_nan => False
  end.

Lemma shr_1_nonneg (mrs : shr_record) :
  0 <= shr_m mrs -> 0 <= shr_m (shr_1 mrs).
Proof.
  destruct mrs as [m r s]. destruct m as [|[p|p|]|p]; cbn; lia.
Qed.

Lemma iter_shr_1_nonneg (p : positive) (mrs : shr_record) :
  0 <= shr_m mrs -> 0 <= shr_m (SpecFloat.iter_pos shr_1 p mrs).
Proof.
  revert mrs. induction p as [p IH|p IH|]; intros mrs Hm; cbn [SpecFloat.iter_pos].
  - apply IH, IH, shr_1_nonneg, Hm.
  - apply IH, IH, Hm.
  - apply shr_1_nonneg, Hm.
Qed.

Lemma shr_fexp_nonneg (p em m e : Z) (l : location) :
  0 <= m -> 0 <= shr_m (shr_fexp p em m e l).1.
Proof.
  intros Hm. unfold shr_fexp, shr.
  assert (shr_m (shr_record_of_loc m l) = m) as Hrec
    by (destruct l as [|[]]; reflexivity).
  destruct (fexp p em (Zdigits2 m + e) - e) as [|n|n]; cbn [fst];
    [lia | | lia].
  apply iter_shr_1_nonneg. lia.
Qed.

Lemma round_nearest_even_nonneg (m : Z) (l : location) :
  0 <= m -> 0 <= round_nearest_even m l.
Proof.
  intros Hm. unfold round_nearest_even.
  destruct l as [|[]]; [lia | | lia | lia]. destruct (Z.even m); lia.
Qed.

(** Rounding keeps the sign it is given. *)
Lemma binary_round_aux_sign (p em : Z) (sx : bool) (mx ex : Z) (lx : location) :
  0 <= mx ->
  match binary_round_aux p em sx mx ex lx with
  | S754_zero s | S754_finite s _ _ | S754_infinity s => s = sx
  | S754_nan => False
  end.
Proof.
  intros Hm. unfold binary_round_aux.
  pose proof (shr_fexp_nonneg p em mx ex lx Hm) as H1.
  destruct (shr_fexp p em mx ex lx) as [mrs' e']. cbn [fst] in H1.
  pose proof (shr_fexp_nonneg p em _ e' loc_Exact
                (round_nearest_even_nonneg _ (loc_of_shr_record mrs') H1)) as H2.
  destruct (shr_fexp p em _ e' loc_Exact) as [mrs'' e'']. cbn [fst] in H2.
  destruct (shr_m mrs'') as [|m|m]; [reflexivity | | lia].
  destruct (e'' <=? em - p); reflexivity.
Qed.

Lemma binary_normalize_unsigned (z : Z) :
  0 <= z -> unsigned (binary_normalize prec emax z 0 false).
Proof.
  intros Hz. destruct z as [|m|m]; [reflexivity | | lia].
  cbn [binary_normalize]. unfold binary_round.
  destruct (shl_align m 0 _) as [mz ez].
  pose proof (binary_round_aux_sign prec emax false (Z.pos mz) ez loc_Exact) as H.
  unfold unsigned. destruct (binary_round_aux _ _ _ _ _ _); apply H; lia.
Qed.

Lemma div_core_nonneg (m1 e1 m2 e2 : Z) :
  0 <= m1 -> 0 < m2 ->
  0 <= (SFdiv_core_binary prec emax m1 e1 m2 e2).1.1.
Proof.
  intros H1 H2. unfold SFdiv_core_binary.
  set (s := e1 - e2 - _).
  set (m' := match s with 0 => m1 | Z.pos _ => Z.shiftl m1 s | Z.neg _ => 0 end).
  assert (0 <= m') as Hm'.
  { subst m'. destruct s; [lia | | lia]. apply Z.shiftl_nonneg. lia. }
  pose proof (Z_div_mod m' m2 ltac:(lia)) as Hdiv.
  change IntDef.Z.div_eucl with Z.div_eucl.
  destruct (Z.div_eucl m' m2) as [q r]. cbn [fst]. nia.
Qed.

(** A quotient of two numbers with the sign bit clear, the divisor not zero,
    has its sign bit clear. *)
Lemma SFdiv_unsigned (x y : spec_float) :
  unsigned x -> unsigned y ->
  (forall s, x <> S754_infinity s) -> (forall s, y <> S754_zero s) ->
  unsigned (SFdiv prec emax x y).
Proof.
  intros Hx Hy Hxi Hyz.
  destruct x as [sx|sx| |sx mx ex]; cbn in Hx; try contradiction;
    try (exfalso; exact (Hxi _ eq_refl));
    destruct y as [sy|sy| |sy my ey]; cbn in Hy; try contradiction;
    try (exfalso; exact (Hyz _ eq_refl)); subst; cbn [SFdiv xorb unsigned];
    try reflexivity.
  pose proof (div_core_nonneg (Z.pos mx) ex (Z.pos my) ey
                ltac:(lia) ltac:(lia)) as Hq.
  destruct (SFdiv_core_binary prec emax (Z.pos mx) ex (Z.pos my) ey)
    as [[mz ez] lz]. cbn [fst] in Hq.
  pose proof (binary_round_aux_sign prec emax false mz ez lz Hq) as H.
  destruct (binary_round_aux _ _ _ _ _ _); exact H.
Qed.

(** [math.ceil] of a finite number is the ceiling of its value; of an
    infinity or NaN it raises. *)
Lemma ceil_value (x : spec_float) (v : Q) :
  value x = Some v -> ceil x = inr (Qceiling v).
Proof.
  destruct x as [s|s| |s m e]; cbn [value ceil]; intros Hv; try discriminate.
  { injection Hv as <-. reflexivity. }
  injection Hv as <-. f_equal.
  set (M := if s then Z.neg m else Z.pos m).
  destruct e as [|p|p].
  - cbn [Z.leb Z.compare]. rewrite Z.pow_0_r, Z.mul_1_r.
    rewrite (Qceiling_comp _ (inject_Z M)) by (cbn [Qpower]; ring).
    rewrite Qceiling_Z. subst M. destruct s; reflexivity.
  - cbn [Z.leb Z.compare].
    rewrite (Qceiling_comp _ (inject_Z (M * 2 ^ Z.pos p))).
    + rewrite Qceiling_Z. subst M. destruct s; [|reflexivity].
      change (Z.neg m) with (- Z.pos m). lia.
    + rewrite inject_Z_mult.
      rewrite (Zpower_Qpower 2 (Z.pos p)) by lia. reflexivity.
  - cbn [Z.leb Z.compare]. change (- Z.neg p) with (Z.pos p).
    rewrite !Z.shiftr_div_pow2 by lia.
    rewrite (Qceiling_comp _ (M # (2 ^ p)%positive)).
    + unfold Qceiling, Qfloor, Qopp. cbn [Qnum Qden].
      rewrite Pos2Z.inj_pow. subst M. destruct s; reflexivity.
    + rewrite (Qmake_Qdiv M). rewrite Pos2Z.inj_pow.
      change (Z.neg p) with (- Z.pos p).
      rewrite Qpower_opp.
      rewrite (Zpower_Qpower 2 (Z.pos p)) by lia. reflexivity.
Qed.


Lemma value_unsigned_nonneg (x : spec_float) (v : Q) :
  unsigned x -> value x = Some v -> (0 <= v)%Q.
Proof.
  destruct x as [s|s| |s m e]; cbn; intros Hs Hv; try discriminate;
    injection Hv as <-; [apply Qle_refl|]. subst s.
  apply Qmult_le_0_compat; [unfold Qle; cbn; lia|].
  apply Qpower_0_le. discriminate.
Qed.

(** The float zero test, on the representation. *)
Lemma is_zero_spec (f : float) :
  PrimFloat.is_zero f = true <-> exists s, Prim2SF f = S754_zero s.
Proof.
  unfold PrimFloat.is_zero. rewrite FloatAxioms.eqb_spec.
  change (Prim2SF 0) with (S754_zero false).
  destruct (Prim2SF f) as [s|s| |s m e]; cbn.
  - split; [eauto | reflexivity].
  - destruct s; cbn; split; try discriminate; intros [? ?]; discriminate.
  - split; [discriminate | intros [? ?]; discriminate].
  - destruct s; cbn; split; try discriminate; intros [? ?]; discriminate.
Qed.

Lemma positive_float (f : float) :
  (0 <? f)%float = true ->
  unsigned (Prim2SF f) /\ (forall s, Prim2SF f <> S754_zero s) /\
  PrimFloat.is_zero f = false.
Proof.
  intros Hpos.
  assert (unsigned (Prim2SF f) /\ forall s, Prim2SF f <> S754_zero s) as [Hu Hz].
  { rewrite FloatAxioms.ltb_spec in Hpos. change (Prim2SF 0) with (S754_zero false) in Hpos.
    destruct (Prim2SF f) as [s|[]| |[] m e]; cbn in Hpos; try discriminate;
      (split; [reflexivity | discriminate]). }
  split; [exact Hu|]. split; [exact Hz|].
  destruct (PrimFloat.is_zero f) eqn:E; [|reflexivity].
  apply is_zero_spec in E. destruct E as [s E]. destruct (Hz s E).
Qed.

Lemma integer_unsigned (z : Z) : 0 <= z -> unsigned (integer z).
Proof. destruct z; cbn; intros; [reflexivity | reflexivity | lia]. Qed.

(** The quotient [a / speed] as IEEE division has it, before any test for
    a zero divisor or an infinite result. *)
Definition quotient (a : Z) (speed : number) : spec_float :=
  match speed with
  | Int z => SFdiv prec emax (integer a) (integer z)
  | Float f => SFdiv prec emax (binary_normalize prec emax a 0 false) (Prim2SF f)
  end.



(** With a non-negative dividend and a positive divisor the pad, when there
    is one, is not negative; the only failure is an overflow. *)
Lemma trailing_pad_positive (a : Z) (speed : number) :
  0 <= a -> is_positive speed = true ->
  (exists pad, trailing_pad a speed = inr pad /\ 0 <= pad) \/
  (exists msg, trailing_pad a speed = inl (Py.OverflowError msg)).
Proof.
  intros Ha Hpos.
  assert (forall q, unsigned q ->
            (exists pad, ceil q = inr pad /\ 0 <= pad) \/
            (exists msg, ceil q = inl (Py.OverflowError msg))) as Hceil.
  { intros q Hq. destruct (value q) as [v|] eqn:Hv.
    - left. exists (Qceiling v). split; [now apply ceil_value|].
      pose proof (value_unsigned_nonneg q v Hq Hv) as H0.
      apply Qceiling_resp_le in H0. exact H0.
    - right. destruct q; cbn in Hq, Hv; try discriminate; [|contradiction].
      cbn. eauto. }
  unfold trailing_pad, truediv, of_int. destruct speed as [z|f]; cbn in Hpos.
  - apply Z.ltb_lt in Hpos. destruct (Z.eqb_spec z 0) as [-> | _]; [lia|].
    assert (unsigned (SFdiv prec emax (integer a) (integer z))) as Hq.
    { apply SFdiv_unsigned; try (apply integer_unsigned; lia).
      - intros s. destruct a; discriminate.
      - intros s. destruct z; discriminate. }
    destruct (SFdiv prec emax (integer a) (integer z)) as [s|s| |s m e] eqn:E;
      [apply Hceil, Hq | right; eauto | destruct Hq | apply Hceil, Hq].
  - destruct (positive_float f Hpos) as (Hu & Hz & ->).
    pose proof (binary_normalize_unsigned a Ha) as Hx.
    destruct (binary_normalize prec emax a 0 false) as [s|s| |s m e] eqn:E;
      [ | right; eauto | destruct Hx | ];
      apply Hceil, SFdiv_unsigned; auto; discriminate.
Qed.

Section Locator.

Variable settings : Settings.
Variable self : AudioNormalizer.
Variables (audio_data : list Z) (chunk_text : string) (speed : number).
Variables (silence_threshold_db : Z) (is_last_chunk : bool).

Let loud := Normalizer.above_threshold silence_threshold_db.
Let len := Z.of_nat (length audio_data).
Let locate :=
  find_first_last_non_silent settings self audio_data chunk_text speed
    silence_threshold_db is_last_chunk.
Let pad_end :=
  Normalizer.samples_to_pad_end settings self
    (Normalizer.pad_multiplier settings chunk_text) is_last_chunk.

Lemma binary64_locate_silent :
  LocatorFacts.silent loud audio_data -> locate = inr (0, len).
Proof.
  intros Hs. unfold locate, find_first_last_non_silent.
  apply LocatorFacts.scan_up_none with (X := 0) in Hs. fold loud. now rewrite Hs.
Qed.

Lemma binary64_locate_loud first last :
  LocatorFacts.first_loud loud audio_data first ->
  LocatorFacts.last_loud loud audio_data last ->
  locate =
    match trailing_pad pad_end speed with
    | inl e => inl e
    | inr pad =>
        inr (Z.max (first - samples_to_pad_start self) 0, Z.min (last + pad) len)
    end.
Proof.
  intros Hf Hl. unfold locate, find_first_last_non_silent.
  apply LocatorFacts.scan_up_first_iff in Hf.
  apply LocatorFacts.scan_down_last_iff in Hl.
  fold loud. rewrite Hf, Hl. reflexivity.
Qed.

(** For a positive speed the range is well formed whenever there is one. *)
Lemma binary64_locate_bounds :
  0 <= samples_to_pad_start self -> is_positive speed = true ->
  (exists start_index end_index,
     locate = inr (start_index, end_index) /\
     0 <= start_index <= end_index /\ end_index <= len) \/
  (exists msg, locate = inl (Py.OverflowError msg)).
Proof.
  intros Hp Hs.
  destruct (PadFacts.silent_or_loud audio_data silence_threshold_db)
    as [Hsil | (first & last & Hf & Hl)].
  - left. exists 0, len. rewrite (binary64_locate_silent Hsil).
    subst len. repeat split; lia.
  - rewrite (binary64_locate_loud first last Hf Hl).
    destruct (trailing_pad_positive pad_end speed) as [(pad & -> & Hpad) | [msg ->]];
      [apply PadFacts.samples_to_pad_end_nonneg; exact Hp | exact Hs | |].
    + left. pose proof (LocatorFacts.first_le_last _ _ _ _ Hf Hl) as Hfl.
      fold len in Hfl. destruct Hf as (Hf0 & _).
      eexists _, _. split; [reflexivity|]. lia.
    + right. eauto.
Qed.

End Locator.

(** The division by a [float] is the processor's: for a dividend below
    2^63 the quotient is the primitive one. *)
Lemma quotient_is_primitive_division (a : Z) (f : float) :
  0 <= a < 2 ^ 63 ->
  quotient a (Float f) =
  Prim2SF (PrimFloat.of_uint63 (Uint63.of_Z a) / f)%float.
Proof.
  intros Ha. unfold quotient. rewrite FloatAxioms.div_spec, FloatAxioms.of_uint63_spec.
  rewrite Uint63.of_Z_spec. rewrite Z.mod_small by (exact Ha). reflexivity.
Qed.

End Binary64Facts.
(** ** The scaled, clipped and converted sample, by value *)

Module SampleFacts.

Import NormalizeFacts.

(** [int()] is the floor of a non-negative number and the ceiling of a
    negative one; so it depends on the value only. *)
Lemma int_floor_ceiling (x : Q) :
  Py.int x = if Qle_bool 0 x then Qfloor x else Qceiling x.
Proof.
  destruct x as [a b]. unfold Py.int, Qle_bool, Qceiling, Qfloor, Qopp.
  cbn [Qnum Qden]. rewrite Z.mul_1_r, Z.mul_0_l.
  destruct (Z.leb_spec 0 a) as [Ha | Ha].
  - apply Z.quot_div_nonneg; lia.
  - rewrite <- (Z.opp_involutive a) at 1. rewrite Z.quot_opp_l by lia.
    rewrite Z.quot_div_nonneg by lia. reflexivity.
Qed.

Lemma int_comp (x y : Q) : (x == y)%Q -> Py.int x = Py.int y.
Proof.
  intros E. rewrite !int_floor_ceiling.
  assert (Qle_bool 0 x = Qle_bool 0 y) as ->.
  { apply eq_true_iff_eq. rewrite !Qle_bool_iff. now rewrite E. }
  destruct (Qle_bool 0 y); [now apply Qfloor_comp | now apply Qceiling_comp].
Qed.

Lemma int_inject_Z (z : Z) : Py.int (inject_Z z) = z.
Proof. unfold Py.int, inject_Z. cbn [Qnum Qden]. apply Z.quot_1_r. Qed.

(** The value [M * 2^e] as a fraction in lowest form of notation. *)
Lemma value_nonneg_exponent (M e : Z) :
  0 <= e -> (inject_Z M * 2 ^ e == inject_Z (M * 2 ^ e))%Q.
Proof.
  intros He. rewrite inject_Z_mult. rewrite (Zpower_Qpower 2 e) by exact He.
  reflexivity.
Qed.

Lemma value_negative_exponent (M : Z) (p : positive) :
  (inject_Z M * 2 ^ Z.neg p == M # (2 ^ p)%positive)%Q.
Proof.
  rewrite (Qmake_Qdiv M). rewrite Pos2Z.inj_pow.
  change (Z.neg p) with (- Z.pos p). rewrite Qpower_opp.
  rewrite (Zpower_Qpower 2 (Z.pos p)) by lia. reflexivity.
Qed.

(** [v < K] and [K < v] for [v = M * 2^e], in integers. *)
Definition below (M e K : Z) : Prop :=
  if 0 <=? e then M * 2 ^ e < K else M < K * 2 ^ (- e).
Definition above (M e K : Z) : Prop :=
  if 0 <=? e then K < M * 2 ^ e else K * 2 ^ (- e) < M.

Lemma below_iff (M e K : Z) :
  (inject_Z M * 2 ^ e < inject_Z K)%Q <-> below M e K.
Proof.
  unfold below. destruct e as [|p|p]; cbn [Z.leb Z.compare].
  - rewrite value_nonneg_exponent by lia. rewrite <- Zlt_Qlt. reflexivity.
  - rewrite value_nonneg_exponent by lia. rewrite <- Zlt_Qlt. reflexivity.
  - rewrite value_negative_exponent. unfold Qlt, inject_Z. cbn [Qnum Qden].
    rewrite Pos2Z.inj_pow. change (- Z.neg p) with (Z.pos p). lia.
Qed.

Lemma above_iff (M e K : Z) :
  (inject_Z K < inject_Z M * 2 ^ e)%Q <-> above M e K.
Proof.
  unfold above. destruct e as [|p|p]; cbn [Z.leb Z.compare].
  - rewrite value_nonneg_exponent by lia. rewrite <- Zlt_Qlt. reflexivity.
  - rewrite value_nonneg_exponent by lia. rewrite <- Zlt_Qlt. reflexivity.
  - rewrite value_negative_exponent. unfold Qlt, inject_Z. cbn [Qnum Qden].
    rewrite Pos2Z.inj_pow. change (- Z.neg p) with (Z.pos p). lia.
Qed.

(** The integer part of a finite number is [int()] of its value. *)
Lemma trunc_value (s : bool) (m : positive) (e : Z) :
  Np.SF_trunc (S754_finite s m e) =
  Some (Py.int (inject_Z (if s then Z.neg m else Z.pos m) * 2 ^ e)).
Proof.
  cbn [Np.SF_trunc]. f_equal. set (M := if s then Z.neg m else Z.pos m).
  destruct e as [|p|p]; cbn [Z.leb Z.compare].
  - rewrite (int_comp _ _ (value_nonneg_exponent M 0 ltac:(lia))).
    rewrite int_inject_Z. subst M. destruct s; reflexivity.
  - rewrite (int_comp _ _ (value_nonneg_exponent M (Z.pos p) ltac:(lia))).
    rewrite int_inject_Z. subst M. destruct s; [|reflexivity].
    change (Z.neg m) with (- Z.pos m). lia.
  - rewrite (int_comp _ _ (value_negative_exponent M p)).
    unfold Py.int. cbn [Qnum Qden]. rewrite Pos2Z.inj_pow.
    change (- Z.neg p) with (Z.pos p). rewrite Z.shiftr_div_pow2 by lia.
    assert (0 < 2 ^ Z.pos p) by (apply Z.pow_pos_nonneg; lia).
    subst M. destruct s.
    + change (Z.neg m) with (- Z.pos m). rewrite Z.quot_opp_l by lia.
      rewrite Z.quot_div_nonneg by lia. reflexivity.
    + rewrite Z.quot_div_nonneg by lia. reflexivity.
Qed.

Lemma digits2_pos_lower (m : positive) :
  2 ^ (Z.pos (digits2_pos m) - 1) <= Z.pos m.
Proof.
  induction m as [m IH | m IH |]; cbn [digits2_pos].
  - rewrite Pos2Z.inj_succ.
    replace (Z.succ (Z.pos (digits2_pos m)) - 1)
      with (Z.succ (Z.pos (digits2_pos m) - 1)) by lia.
    rewrite Z.pow_succ_r by lia. lia.
  - rewrite Pos2Z.inj_succ.
    replace (Z.succ (Z.pos (digits2_pos m)) - 1)
      with (Z.succ (Z.pos (digits2_pos m) - 1)) by lia.
    rewrite Z.pow_succ_r by lia. lia.
  - reflexivity.
Qed.

(** A valid binary64 number has a mantissa of 53 bits, or fewer at the
    lowest exponent. *)
Lemma valid_mantissa (s : bool) (m : positive) (e : Z) :
  SpecFloat.valid_binary prec emax (S754_finite s m e) = true ->
  Z.pos m < 2 ^ 53 /\ (2 ^ 52 <= Z.pos m \/ e = -1074).
Proof.
  intros Hv. split; [exact (valid_mantissa_bound s m e Hv)|].
  cbn [SpecFloat.valid_binary] in Hv. unfold bounded, canonical_mantissa, fexp in Hv.
  apply andb_prop in Hv as [Hc _]. apply Z.eqb_eq in Hc.
  unfold prec, emax, SpecFloat.emin in Hc.
  pose proof (digits2_pos_lower m) as Hd.
  destruct (Z.max_spec (Z.pos (digits2_pos m) + e - 53) (3 - 1024 - 53))
    as [[_ Hmax] | [_ Hmax]]; rewrite Hmax in Hc.
  - right. lia.
  - left. replace (Z.pos (digits2_pos m) - 1) with 52 in Hd by lia. exact Hd.
Qed.

Definition lo_sf : spec_float := S754_finite true 4503599627370496 (-37).
Definition hi_sf : spec_float := S754_finite false 9006924376834048 (-38).

Lemma Prim2SF_lo : Prim2SF lo = lo_sf.
Proof. vm_compute. reflexivity. Qed.

Lemma Prim2SF_hi : Prim2SF hi = hi_sf.
Proof. vm_compute. reflexivity. Qed.

Lemma pow2_ge (a b : Z) : 0 <= a <= b -> 2 ^ a <= 2 ^ b.
Proof. intros H. apply Z.pow_le_mono_r; lia. Qed.

(** The comparison with the upper clip bound decides [v < 32767]. *)
Lemma below_hi (s : bool) (m : positive) (e : Z) :
  SpecFloat.valid_binary prec emax (S754_finite s m e) = true ->
  SFltb (S754_finite s m e) hi_sf = true <->
  below (if s then Z.neg m else Z.pos m) e 32767.
Proof.
  intros Hv. apply valid_mantissa in Hv as [Hm Hn].
  change (2 ^ 53) with 9007199254740992 in Hm.
  change (2 ^ 52) with 4503599627370496 in Hn.
  unfold below, SFltb, hi_sf, SFcompare. destruct s.
  - (* a negative number lies below *)
    split; [intros _ | reflexivity].
    destruct (Z.leb_spec 0 e) as [He | He].
    + assert (0 < 2 ^ e) by (apply Z.pow_pos_nonneg; lia).
      change (Z.neg m) with (- Z.pos m). nia.
    + assert (0 < 2 ^ (- e)) by (apply Z.pow_pos_nonneg; lia). lia.
  - destruct (Z.compare_spec e (-38)) as [He | He | He].
    + subst e. cbn [Z.leb Z.compare]. change (32767 * 2 ^ (- -38))
        with 9006924376834048.
      rewrite Pos.compare_cont_spec. cbn [Pos.switch_Eq].
      destruct (Pos.compare_spec m 9006924376834048) as [Hc | Hc | Hc].
      * subst m. split; [discriminate | lia].
      * apply Pos2Z.pos_lt_pos in Hc. split; [intros _; exact Hc | reflexivity].
      * apply Pos2Z.pos_lt_pos in Hc. split; [discriminate | lia].
    + destruct (Z.leb_spec 0 e) as [He' | He']; [lia|].
      split; [intros _ | reflexivity].
      pose proof (pow2_ge 39 (- e) ltac:(lia)) as Hp.
      change (2 ^ 39) with 549755813888 in Hp. lia.
    + assert (4503599627370496 <= Z.pos m) as Hlow by lia.
      split; [discriminate|]. intros Hb. exfalso.
      destruct (Z.leb_spec 0 e) as [He' | He'].
      * assert (1 <= 2 ^ e) by (apply (pow2_ge 0 e); lia). nia.
      * pose proof (pow2_ge (- e) 37 ltac:(lia)) as Hp.
        change (2 ^ 37) with 137438953472 in Hp. lia.
Qed.

(** The comparison with the lower clip bound decides [-32768 < v]. *)
Lemma above_lo (s : bool) (m : positive) (e : Z) :
  SpecFloat.valid_binary prec emax (S754_finite s m e) = true ->
  SFltb lo_sf (S754_finite s m e) = true <->
  above (if s then Z.neg m else Z.pos m) e (-32768).
Proof.
  intros Hv. apply valid_mantissa in Hv as [Hm Hn].
  change (2 ^ 53) with 9007199254740992 in Hm.
  change (2 ^ 52) with 4503599627370496 in Hn.
  unfold above, SFltb, lo_sf, SFcompare. destruct s.
  - destruct (Z.compare_spec (-37) e) as [He | He | He].
    + subst e. cbn [Z.leb Z.compare]. change (-32768 * 2 ^ (- -37))
        with (-4503599627370496).
      rewrite Pos.compare_cont_spec. cbn [Pos.switch_Eq].
      destruct (Pos.compare_spec 4503599627370496 m) as [Hc | Hc | Hc];
        cbn [CompOpp].
      * subst m. split; [discriminate | lia].
      * apply Pos2Z.pos_lt_pos in Hc. split; [discriminate | lia].
      * apply Pos2Z.pos_lt_pos in Hc. split; [intros _; lia | reflexivity].
    + assert (4503599627370496 <= Z.pos m) as Hlow by lia.
      split; [discriminate|]. intros Hb. exfalso.
      destruct (Z.leb_spec 0 e) as [He' | He'].
      * assert (1 <= 2 ^ e) by (apply (pow2_ge 0 e); lia).
        change (Z.neg m) with (- Z.pos m) in Hb. nia.
      * pose proof (pow2_ge (- e) 36 ltac:(lia)) as Hp.
        change (2 ^ 36) with 68719476736 in Hp. lia.
    + destruct (Z.leb_spec 0 e) as [He' | He']; [lia|].
      split; [intros _ | reflexivity].
      pose proof (pow2_ge 38 (- e) ltac:(lia)) as Hp.
      change (2 ^ 38) with 274877906944 in Hp. lia.
  - (* a positive number lies above *)
    split; [intros _ | reflexivity].
    destruct (Z.leb_spec 0 e) as [He | He].
    + assert (0 < 2 ^ e) by (apply Z.pow_pos_nonneg; lia). nia.
    + assert (0 < 2 ^ (- e)) by (apply Z.pow_pos_nonneg; lia). lia.
Qed.

Lemma not_nan (x : float) : is_nan x = false -> Prim2SF x <> S754_nan.
Proof.
  intros Hn. unfold Prim2SF. rewrite Hn.
  destruct (PrimFloat.is_zero x); [discriminate|].
  destruct (is_infinity x); [discriminate|].
  destruct (Z.frexp x) as [r exp].
  destruct (shr_fexp prec emax _ _ _) as [mrs e'].
  destruct (shr_m mrs); discriminate.
Qed.

(** The clip followed by the conversion is the clamp of the value followed
    by the truncation. *)
Lemma astype_clip_value (x : float) :
  Np.astype_int16 (Np.clip x lo hi) = NormalizeSpec.clamp_truncate (Prim2SF x).
Proof.
  unfold Np.clip, Np.npy_max, Np.npy_min.
  destruct (is_nan x) eqn:Hnan.
  { rewrite Hnan. unfold Np.astype_int16, Prim2SF. rewrite Hnan. reflexivity. }
  pose proof (not_nan x Hnan) as Hnn.
  pose proof (Prim2SF_valid x) as Hv.
  assert (is_nan lo = false) as Hlon by reflexivity.
  assert (PrimFloat.ltb lo hi = true) as Hlohi by reflexivity.
  assert (Np.astype_int16 lo = -32768) as Hlo16 by (vm_compute; reflexivity).
  assert (Np.astype_int16 hi = 32767) as Hhi16 by (vm_compute; reflexivity).
  destruct (PrimFloat.ltb lo x) eqn:Hlo; rewrite FloatAxioms.ltb_spec, Prim2SF_lo in Hlo.
  - rewrite Hnan.
    destruct (PrimFloat.ltb x hi) eqn:Hhi;
      rewrite FloatAxioms.ltb_spec, Prim2SF_hi in Hhi.
    + (* strictly between the bounds *)
      unfold Np.astype_int16.
      pose proof (trunc_between (Prim2SF x) Hv) as Hbetween.
      rewrite Prim2SF_lo, Prim2SF_hi in Hbetween.
      destruct (Hbetween Hlo Hhi) as (z & Hz & Hrange). rewrite Hz.
      rewrite wrap_int16_id by exact Hrange.
      destruct (Prim2SF x) as [s|s| |s m e].
      * cbn in Hz. injection Hz as <-. reflexivity.
      * destruct s; cbn in Hlo, Hhi; discriminate.
      * contradiction.
      * rewrite trunc_value in Hz. injection Hz as <-.
        cbn [NormalizeSpec.clamp_truncate]. apply int_comp.
        apply (above_lo s m e Hv), above_iff in Hlo.
        apply (below_hi s m e Hv), below_iff in Hhi.
        unfold NormalizeSpec.clamp. symmetry.
        rewrite Q.max_r by (apply Qlt_le_weak; exact Hlo).
        apply Q.min_r. apply Qlt_le_weak. exact Hhi.
    + (* at or above the upper bound *)
      rewrite Hhi16.
      destruct (Prim2SF x) as [s|s| |s m e].
      * cbn in Hhi. discriminate.
      * destruct s; cbn in Hlo; [discriminate | reflexivity].
      * contradiction.
      * cbn [NormalizeSpec.clamp_truncate].
        assert (inject_Z 32767 <=
                inject_Z (if s then Z.neg m else Z.pos m) * 2 ^ e)%Q as Hge.
        { apply Qnot_lt_le. intros Hlt. apply below_iff, (below_hi s m e Hv) in Hlt.
          congruence. }
        rewrite <- (int_inject_Z 32767) at 1. apply int_comp.
        unfold NormalizeSpec.clamp. symmetry.
        rewrite Q.max_r.
        -- apply Q.min_l. exact Hge.
        -- eapply Qle_trans; [|exact Hge]. discriminate.
  - (* at or below the lower bound *)
    rewrite Hlon, Hlohi, Hlo16.
    destruct (Prim2SF x) as [s|s| |s m e].
    + cbn in Hlo. discriminate.
    + destruct s; cbn in Hlo; [reflexivity | discriminate].
    + contradiction.
    + cbn [NormalizeSpec.clamp_truncate].
      assert (inject_Z (if s then Z.neg m else Z.pos m) * 2 ^ e <=
              inject_Z (-32768))%Q as Hle.
      { apply Qnot_lt_le. intros Hlt. apply above_iff, (above_lo s m e Hv) in Hlt.
        congruence. }
      rewrite <- (int_inject_Z (-32768)) at 1. apply int_comp.
      unfold NormalizeSpec.clamp. symmetry.
      rewrite Q.max_l by exact Hle. apply Q.min_r. discriminate.
Qed.

(** What [normalize] returns for a non-empty array, and the heap it leaves:
    two new arrays above the ones that existed. *)
Lemma normalize_returns (self : AudioNormalizer) (audio_data : nat)
    (h : Ndarray.heap) :
  let a := Ndarray.objects h audio_data in
  Ndarray.data a <> [] ->
  exists h',
    Ndarray.normalize self audio_data h =
      (h', inr (map (fun x =>
                       Np.astype_int16
                         (Np.clip (Ndarray.multiply (Ndarray.dtype_of a) x 32767)
                            lo hi))
                    (Ndarray.data a))) /\
    Ndarray.allocated h' = S (S (Ndarray.allocated h)) /\
    forall r, (r < Ndarray.allocated h)%nat ->
              Ndarray.objects h' r = Ndarray.objects h r.
Proof.
  intros a Hne. unfold Ndarray.normalize. fold a.
  destruct (Ndarray.data a) as [|x l] eqn:Hdata; [congruence|].
  cbn [length Nat.eqb Ndarray.new Ndarray.objects Ndarray.allocated
       Ndarray.data Ndarray.dtype_of].
  rewrite !Nat.eqb_refl.
  replace (Ndarray.allocated h =? S (Ndarray.allocated h))%nat with false
    by (symmetry; apply Nat.eqb_neq; lia).
  cbn [Ndarray.data]. eexists. split.
  { rewrite !map_map. reflexivity. }
  split; [reflexivity|].
  - intros r Hr. cbn [Ndarray.objects].
    replace (r =? S (Ndarray.allocated h))%nat with false
      by (symmetry; apply Nat.eqb_neq; lia).
    replace (r =? Ndarray.allocated h)%nat with false
      by (symmetry; apply Nat.eqb_neq; lia).
    reflexivity.
Qed.

(** On a float64 array the method computes what [Normalizer.normalize]
    does on the list of its elements. *)
Lemma normalize_float64 (self : AudioNormalizer) (audio_data : nat)
    (h : Ndarray.heap) :
  Ndarray.dtype_of (Ndarray.objects h audio_data) = Ndarray.float64 ->
  (Ndarray.normalize self audio_data h).2 =
  Normalizer.normalize self (Ndarray.data (Ndarray.objects h audio_data)).
Proof.
  intros Hdt. unfold Normalizer.normalize.
  destruct (Ndarray.data (Ndarray.objects h audio_data)) as [|x l] eqn:Hdata.
  - unfold Ndarray.normalize. rewrite Hdata. reflexivity.
  - destruct (normalize_returns self audio_data h) as (h' & -> & _);
      [rewrite Hdata; discriminate|].
    rewrite Hdt, Hdata. reflexivity.
Qed.

End SampleFacts.
(** * The properties of the specification, one by one *)

Module Claims.

Import Normalizer LocatorFacts PadFacts Service ServiceFacts.

(** C8.  For a non-empty float array, float32 or float64, [normalize]
    returns an int16 buffer of the same length, each sample within
    [-32768, 32767] and obtained from the input sample by scaling it by
    32767 in the array's own arithmetic (the IEEE product at 24 bits for
    float32, at 53 bits for float64), clamping the value of the product
    to [-32768, 32767] and truncating toward zero (0 where the product is
    NaN).  The call alters no array that existed before it, the one it is
    handed included, and what it returns depends on the contents of that
    array alone: not on the normaliser, nor on the rest of the heap. *)
Theorem normalize_scales_clips_truncates
    (self : AudioNormalizer) (audio_data : nat) (h : Ndarray.heap) :
  let a := Ndarray.objects h audio_data in
  (audio_data < Ndarray.allocated h)%nat ->
  Ndarray.data a <> [] ->
  exists out h',
    Ndarray.normalize self audio_data h = (h', inr out) /\
    length out = length (Ndarray.data a) /\
    Forall NormalizeFacts.in_int16 out /\
    (forall (i : nat) (x : float),
       Ndarray.data a !! i = Some x ->
       let scaled :=
         match Ndarray.dtype_of a with
         | Ndarray.float32 =>
             SF2Prim (SFmul 24 128 (Prim2SF x) (Prim2SF 32767))
         | Ndarray.float64 => (x * 32767)%float
         end in
       out !! i = Some (NormalizeSpec.clamp_truncate (Prim2SF scaled))) /\
    Ndarray.objects h' audio_data = a /\
    (forall r, (r < Ndarray.allocated h)%nat ->
               Ndarray.objects h' r = Ndarray.objects h r) /\
    (forall (other : AudioNormalizer) (h2 : Ndarray.heap) (r2 : nat),
       Ndarray.objects h2 r2 = a ->
       (Ndarray.normalize other r2 h2).2 = inr out).
Proof.
  intros a Hlive Hne.
  destruct (SampleFacts.normalize_returns self audio_data h Hne)
    as (h' & Hcall & _ & Hkept). fold a in Hcall.
  eexists _, h'. split; [exact Hcall|].
  split; [now rewrite length_map|]. split; [|split; [|split; [|split]]].
  - apply Forall_forall. intros z Hz. apply list_elem_of_In, in_map_iff in Hz.
    destruct Hz as (y & <- & _).
    exact (proj1 (NormalizeFacts.astype_after_clip
                    (Ndarray.multiply (Ndarray.dtype_of a) y 32767))).
  - intros i x Hx scaled. rewrite list_lookup_fmap, Hx. cbn [fmap option_fmap option_map].
    f_equal. rewrite SampleFacts.astype_clip_value. subst scaled.
    unfold Ndarray.multiply. destruct (Ndarray.dtype_of a); reflexivity.
  - apply Hkept, Hlive.
  - exact Hkept.
  - intros other h2 r2 Hsame.
    destruct (SampleFacts.normalize_returns other r2 h2) as (h2' & -> & _);
      rewrite Hsame; [exact Hne | reflexivity].
Qed.

(** A float32 array of two samples: the second one scaled is 27228.999...,
    which float32 rounds to 27229. *)
Lemma normalize_scales_clips_truncates_witness :
  exists h',
    Ndarray.normalize (init Examples.settings) 0
      (NdarrayExamples.one_array Ndarray.float32) = (h', inr [16383; 27229]) /\
    Ndarray.objects h' 0%nat =
      Ndarray.objects (NdarrayExamples.one_array Ndarray.float32) 0%nat.
Proof.
  destruct (normalize_scales_clips_truncates (init Examples.settings) 0
              (NdarrayExamples.one_array Ndarray.float32))
    as (out & h' & Hcall & _ & _ & Hformula & Hkept & _);
    [cbn; lia | discriminate |].
  pose proof (Hformula 0%nat _ eq_refl) as H0.
  pose proof (Hformula 1%nat _ eq_refl) as H1.
  cbv zeta in H0, H1.
  assert (out = [16383; 27229]) as ->.
  { pose proof (f_equal snd Hcall) as Hout. vm_compute in Hout.
    injection Hout as <-. reflexivity. }
  exists h'. split; [exact Hcall | exact Hkept].
Defined.




(** C4 fails on the code: a buffer whose only loud sample is negative.  The
    sample at index 1201 has magnitude 30000, above the threshold, so the
    range by magnitude is (1, 1202); the code compares the signed sample,
    finds nothing loud and returns the whole buffer (0, 1202). *)
Theorem locator_misses_negative_peak :
  Examples.negative_peak !! 1201%nat = Some (-30000) /\
  Spec.magnitude_above (-45) (-30000) = true /\
  Spec.locate_by_magnitude Examples.settings (init Examples.settings)
    Examples.negative_peak "" 1 (-45) false = Some (1, 1202) /\
  find_first_last_non_silent Examples.settings (init Examples.settings)
    Examples.negative_peak "" 1 (-45) false = inr (0, 1202).
Proof.
  repeat split; vm_compute; reflexivity.
Qed.

(** C5 (as the code has it).  For a dynamic pad of a whole number of
    milliseconds on a non-last chunk, multiplier 2 doubles the dynamic pad
    in samples; the leading pad is taken off afterwards, so once the
    multiplier-1 dynamic pad reaches the leading pad the multiplier-2
    [samples_to_pad_end] is twice the multiplier-1 one plus the leading
    pad, and not its double. *)
Theorem doubled_multiplier_pad (settings : Settings) (d : Z) :
  dynamic_gap_trim_padding_ms settings = inject_Z d ->
  let self := init settings in
  let pad_end m := samples_to_pad_end settings self m false in
  dynamic_pad_samples settings self 2 = 2 * dynamic_pad_samples settings self 1 /\
  (samples_to_pad_start self <= dynamic_pad_samples settings self 1 ->
   pad_end 2%Q = 2 * pad_end 1%Q + samples_to_pad_start self /\
   pad_end 2%Q <> 2 * pad_end 1%Q).
Proof.
  intros Hd self pad_end.
  pose proof (dynamic_pad_whole settings d 2 Hd) as H2.
  pose proof (dynamic_pad_whole settings d 1 Hd) as H1.
  change (inject_Z 2) with 2%Q in H2. change (inject_Z 1) with 1%Q in H1.
  fold self in H1, H2. split; [lia|].
  subst pad_end. unfold samples_to_pad_end. cbn [negb].
  rewrite H1, H2. change (samples_to_pad_start self) with 1200. lia.
Qed.

Lemma doubled_multiplier_pad_witness :
  dynamic_gap_trim_padding_ms Examples.settings = inject_Z 410 /\
  samples_to_pad_end Examples.settings (init Examples.settings) 2 false
  = 2 * samples_to_pad_end Examples.settings (init Examples.settings) 1 false
    + 1200.
Proof.
  split; [reflexivity|].
  destruct (doubled_multiplier_pad Examples.settings 410 eq_refl) as [_ Hpad].
  apply Hpad. vm_compute. discriminate.
Defined.

(** C5 fails as stated: with a 410 ms dynamic pad, a chunk ending in a comma
    (multiplier 2) gets a trailing pad of 18480 samples at speed 1, a chunk
    without punctuation (multiplier 1) gets 8640; 18480 is not 2 * 8640. *)
Lemma doubled_multiplier_not_doubled_pad :
  pad_multiplier Examples.settings "Hello," = 2%Q /\
  pad_multiplier Examples.settings "Hello" = 1%Q /\
  trailing_pad
    (samples_to_pad_end Examples.settings (init Examples.settings)
       (pad_multiplier Examples.settings "Hello,") false) 1 = inr 18480 /\
  trailing_pad
    (samples_to_pad_end Examples.settings (init Examples.settings)
       (pad_multiplier Examples.settings "Hello") false) 1 = inr 8640 /\
  18480 <> 2 * 8640.
Proof.
  repeat split; try (vm_compute; reflexivity). discriminate.
Qed.

(** C6 (as the code has it).  For a normaliser built by [__init__] and a
    positive speed, [int] or [float], the locator either returns a range
    with [0 <= start <= end <= len(buffer)] or raises [OverflowError]
    (the quotient of the pad by the speed does not fit binary64); for a
    buffer with no sample above the threshold it returns [(0, len(buffer))]
    at any speed, a non-empty range unless the buffer itself is empty, and
    [trim_audio] then keeps the whole buffer left by the fixed trim. *)
Theorem locator_range_invariant
    (settings : Settings) (audio_data : list Z) (chunk_text : string)
    (speed : Binary64.number) (silence_threshold_db : Z)
    (is_last_chunk : bool) :
  let self := init settings in
  let len := Z.of_nat (length audio_data) in
  let locate :=
    Binary64.find_first_last_non_silent settings self audio_data chunk_text
      speed silence_threshold_db is_last_chunk in
  (Binary64.is_positive speed = true ->
   (exists start_index end_index,
      locate = inr (start_index, end_index) /\
      0 <= start_index <= end_index /\ end_index <= len) \/
   (exists msg, locate = inl (Py.OverflowError msg))) /\
  (silent (above_threshold silence_threshold_db) audio_data ->
   locate = inr (0, len) /\ (audio_data <> [] -> 0 < len)) /\
  (forall (audio_chunk : AudioChunk Z) (normalizer : option AudioNormalizer),
     let n := match normalizer with Some n => n | None => self end in
     silent (above_threshold default_silence_threshold_db)
       (trim_ends n (audio audio_chunk)) ->
     exists trimmed,
       Binary64.trim_audio settings audio_chunk chunk_text speed is_last_chunk
         normalizer = inr trimmed /\
       audio trimmed = trim_ends n (audio audio_chunk)).
Proof.
  intros self len locate. split; [|split].
  - intros Hs. subst locate len.
    apply (Binary64Facts.binary64_locate_bounds settings self audio_data
             chunk_text speed silence_threshold_db is_last_chunk); [|exact Hs].
    subst self. rewrite init_samples_to_pad_start. lia.
  - intros Hsil. split.
    + exact (Binary64Facts.binary64_locate_silent settings self audio_data
               chunk_text speed silence_threshold_db is_last_chunk Hsil).
    + intros Hne. subst len. destruct audio_data; [congruence|]. cbn [length]. lia.
  - intros audio_chunk normalizer n Hsil. unfold Binary64.trim_audio.
    fold self. fold n.
    rewrite (Binary64Facts.binary64_locate_silent settings n _ chunk_text speed
               default_silence_threshold_db is_last_chunk Hsil).
    eexists. split; [reflexivity|]. cbn [audio]. apply TrimFacts.slice_whole.
Qed.

Lemma locator_range_invariant_witness :
  Binary64.is_positive (Binary64.Float 2) = true /\
  silent (above_threshold (-45)) [10; -20; 30] /\
  Binary64.find_first_last_non_silent Examples.settings
    (init Examples.settings) [10; -20; 30] "" (Binary64.Float 2) (-45) false
  = inr (0, 3) /\
  exists start_index end_index,
    Binary64.find_first_last_non_silent Examples.settings
      (init Examples.settings) Examples.click "" (Binary64.Float 2) (-45) false
    = inr (start_index, end_index) /\
    0 <= start_index <= end_index /\ end_index <= 1300.
Proof.
  assert (silent (above_threshold (-45)) [10; -20; 30]) as Hsil
    by (apply (scan_up_none _ _ 0); reflexivity).
  split; [reflexivity|]. split; [exact Hsil|]. split.
  - exact (proj1 (proj1 (proj2 (locator_range_invariant Examples.settings
                                  [10; -20; 30] "" (Binary64.Float 2) (-45)
                                  false)) Hsil)).
  - destruct (proj1 (locator_range_invariant Examples.settings
                       Examples.click "" (Binary64.Float 2) (-45) false)
                eq_refl) as [Hrange | [msg Hraised]];
      [exact Hrange | vm_compute in Hraised; discriminate Hraised].
Defined.

(** C6 fails as stated.  The code takes a negative speed, and then the pad
    is negative: on a buffer whose first sample is the only loud one, at
    speed -1.0, the locator returns (0, -8640), the end before the start
    and below zero.  At a positive speed too small for the quotient to fit
    a float it returns no range at all.  And for an empty buffer, which has
    no sample above the threshold, the range returned is (0, 0), empty. *)
Lemma negative_speed_breaks_range :
  Binary64.find_first_last_non_silent Examples.settings
    (init Examples.settings) Examples.click "" (Binary64.Float (-1)) (-45)
    false = inr (0, -8640) /\
  ~ (0 <= 0 <= -8640) /\
  Binary64.find_first_last_non_silent Examples.settings
    (init Examples.settings) Examples.click "" (Binary64.Float 0x1p-1074)
    (-45) false
  = inl (Py.OverflowError "cannot convert float infinity to integer") /\
  Binary64.find_first_last_non_silent Examples.settings
    (init Examples.settings) [] "" (Binary64.Int 1) (-45) false = inr (0, 0).
Proof.
  split; [vm_compute; reflexivity|]. split; [lia|].
  split; vm_compute; reflexivity.
Qed.



(** The shift of C7 can make a timestamp negative. *)
Lemma rebased_timestamp_negative :
  exists trimmed timestamp,
    trim_audio Examples.settings Examples.spoken "hi" 1 false None = inr trimmed /\
    word_timestamps trimmed = Some [timestamp] /\
    (start_time timestamp < 0)%Q.
Proof.
  eexists _, _. split; [vm_compute; reflexivity|].
  split; [reflexivity|]. reflexivity.
Qed.

Section Orchestrator.

Context `{StreamingAudioWriter}.
Variable settings : Settings.

(** C9 (as the code has it).  For a format outside [SUPPORTED_FORMATS] the
    call fails at once: the format error is raised inside the [try] block,
    so what reaches the caller is the handler's error wrapping it; nothing
    is normalised, trimmed or constructed, the writer map is as it was, and
    the only trace is the log line. *)
Theorem unsupported_format_rejected
    (audio_chunk : AudioChunk float) (sample_rate : Z) (output_format : string)
    (speed : Q) (chunk_text : string) (is_first_chunk is_last_chunk : bool)
    (normalizer : option AudioNormalizer) (s : state) :
  output_format ∉ SUPPORTED_FORMATS ->
  exists s',
    convert_audio settings audio_chunk sample_rate output_format speed
      chunk_text is_first_chunk is_last_chunk normalizer s =
    (s', inl (Py.ValueError
                ("Failed to convert audio stream to " +:+ output_format
                 +:+ ": Format " +:+ output_format +:+ " not supported"))) /\
    _writers s' = _writers s /\
    journal s' =
      journal s ++
      [LoggedError ("Error converting audio stream to " +:+ output_format
                    +:+ ": Format " +:+ output_format +:+ " not supported")].
Proof.
  intros Hf. rewrite convert_audio_unsupported by exact Hf.
  eexists. split; [reflexivity|]. split; reflexivity.
Qed.

(** C10.  On a chunk that is not the last and whose buffer is empty after
    normalisation and trimming, the call does not return: it fails with the
    handler's error; and when the format is supported and a writer was
    obtained, the cause is the unbound [chunk_data] of line 172, no write
    having been requested. *)
Theorem empty_chunk_write_result_unbound
    (audio_chunk : AudioChunk float) (sample_rate : Z) (output_format : string)
    (speed : Q) (chunk_text : string) (is_first_chunk : bool)
    (normalizer : option AudioNormalizer) (s : state)
    (prepared : AudioChunk Z) :
  prepare settings audio_chunk speed chunk_text false normalizer = inr prepared ->
  audio prepared = [] ->
  exists s' cause,
    convert_audio settings audio_chunk sample_rate output_format speed
      chunk_text is_first_chunk false normalizer s =
    (s', inl (conversion_failed output_format cause)) /\
    (output_format ∈ SUPPORTED_FORMATS ->
     forall s1 w,
       obtain_writer output_format sample_rate is_first_chunk s = (s1, inr w) ->
       cause = unbound_chunk_data /\
       s' = logged s1 output_format unbound_chunk_data).
Proof.
  intros Hprep Hempty.
  destruct (decide (output_format ∈ SUPPORTED_FORMATS)) as [Hf | Hf].
  - rewrite convert_audio_supported by exact Hf. rewrite Hprep.
    unfold encode. rewrite Hempty.
    destruct (obtain_writer output_format sample_rate is_first_chunk s)
      as [s1 [e | w]] eqn:Hw.
    + exists (logged s1 output_format e), e. split; [reflexivity|].
      intros _ s1' w' [= _ Hw']. 
    + rewrite write_step_eq. cbn [length Nat.ltb Nat.leb].
      rewrite finish_step_eq.
      exists (logged s1 output_format unbound_chunk_data), unbound_chunk_data.
      split; [reflexivity|]. intros _ s1' w' [= <- _]. auto.
  - rewrite convert_audio_unsupported by exact Hf.
    eexists _, _. split; [reflexivity|]. intros Hf'. contradiction.
Qed.

(** C1 (as the code has it).  With a supported format, an exception raised
    by normalisation, trimming, the writer's write or the writer's finalize
    reaches the caller as one error naming the format and the cause.  The
    handler removes nothing from the writer map: the map is as it was when
    normalisation or trimming raised, and still holds the writer under the
    key when the write or the finalize raised. *)
Theorem failure_wrapped_writer_kept
    (audio_chunk : AudioChunk float) (sample_rate : Z) (output_format : string)
    (speed : Q) (chunk_text : string) (is_first_chunk is_last_chunk : bool)
    (normalizer : option AudioNormalizer) (s : state) :
  output_format ∈ SUPPORTED_FORMATS ->
  let key := writer_key output_format sample_rate in
  let call :=
    convert_audio settings audio_chunk sample_rate output_format speed
      chunk_text is_first_chunk is_last_chunk normalizer s in
  let failed cause := inl (conversion_failed output_format cause) in
  (forall cause,
     prepare settings audio_chunk speed chunk_text is_last_chunk normalizer
     = inl cause ->
     exists s', call = (s', failed cause) /\ _writers s' = _writers s) /\
  (forall prepared s1 w cause,
     prepare settings audio_chunk speed chunk_text is_last_chunk normalizer
     = inr prepared ->
     obtain_writer output_format sample_rate is_first_chunk s = (s1, inr w) ->
     audio prepared <> [] ->
     (write_chunk w (audio prepared)).2 = inl cause ->
     exists s', call = (s', failed cause) /\
       _writers s' !! key = Some (write_chunk w (audio prepared)).1) /\
  (forall prepared s1 w s2 w2 chunk_data cause,
     prepare settings audio_chunk speed chunk_text is_last_chunk normalizer
     = inr prepared ->
     obtain_writer output_format sample_rate is_first_chunk s = (s1, inr w) ->
     write_step key (audio prepared) w s1 = (s2, inr (w2, chunk_data)) ->
     is_last_chunk = true ->
     (write_chunk_finalize w2).2 = inl cause ->
     exists s', call = (s', failed cause) /\
       _writers s' !! key = Some (write_chunk_finalize w2).1) /\
  (forall s' e, call = (s', inl e) ->
     exists cause, e = conversion_failed output_format cause).
Proof.
  intros Hf key call failed. subst call.
  rewrite convert_audio_supported by exact Hf.
  split; [|split; [|split]].
  - intros cause ->. eexists. split; reflexivity.
  - intros prepared s1 w cause -> Hw Hne Hraise.
    unfold encode. rewrite Hw. fold key. rewrite write_step_eq.
    destruct (audio prepared) as [|a l] eqn:Ha; [congruence|].
    cbn [length Nat.ltb Nat.leb]. cbv zeta. rewrite Hraise.
    eexists. split; [reflexivity|]. cbn [_writers logged].
    apply lookup_insert_eq.
  - intros prepared s1 w s2 w2 chunk_data cause -> Hw Hstep -> Hraise.
    unfold encode. rewrite Hw. fold key. rewrite Hstep.
    rewrite finish_step_eq. cbv zeta. rewrite Hraise.
    eexists. split; [reflexivity|]. cbn [_writers logged].
    apply lookup_insert_eq.
  - intros s' e.
    destruct (prepare settings audio_chunk speed chunk_text is_last_chunk normalizer)
      as [e0 | prepared].
    + intros [= _ <-]. eauto.
    + destruct (encode prepared sample_rate output_format is_first_chunk
                  is_last_chunk s) as [s3 [e0 | out]].
      * intros [= _ <-]. eauto.
      * discriminate.
Qed.

(** C2 (as the code has it).  Two calls under one key that both return,
    the first with [is_first_chunk] set and [is_last_chunk] clear, the
    second the other way round.  The first call constructs the one writer
    and writes the first buffer to it, and leaves it in the map; the second
    call constructs nothing, writes to that writer (when its buffer is not
    empty after trimming), requests its finalize once, returns what the
    finalize returned and removes the key. *)
Theorem two_chunk_session_lifecycle
    (sample_rate : Z) (output_format : string)
    (chunk1 chunk2 : AudioChunk float) (speed1 speed2 : Q)
    (text1 text2 : string) (normalizer1 normalizer2 : option AudioNormalizer)
    (s s1 s2 : state) (out1 out2 : list Byte.byte * AudioChunk Z) :
  convert_audio settings chunk1 sample_rate output_format speed1 text1
    true false normalizer1 s = (s1, inr out1) ->
  convert_audio settings chunk2 sample_rate output_format speed2 text2
    false true normalizer2 s1 = (s2, inr out2) ->
  let key := writer_key output_format sample_rate in
  exists constructed,
    writer_init output_format sample_rate = inr constructed /\
    audio out1.2 <> [] /\
    (write_chunk constructed (audio out1.2)).2 = inr out1.1 /\
    let written := (write_chunk constructed (audio out1.2)).1 in
    _writers s1 !! key = Some written /\
    let finalized :=
      if (0 <? length (audio out2.2))%nat
      then (write_chunk written (audio out2.2)).1 else written in
    (write_chunk_finalize finalized).2 = inr out2.1 /\
    _writers s2 !! key = None /\
    journal s1 = journal s ++
      [Constructed key output_format sample_rate;
       WriteRequested key (audio out1.2)] /\
    journal s2 = journal s1 ++
      (if (0 <? length (audio out2.2))%nat
       then [WriteRequested key (audio out2.2)] else [])
      ++ [FinalizeRequested key].
Proof.
  intros Hcall1 Hcall2 key.
  assert (output_format ∈ SUPPORTED_FORMATS) as Hf.
  { destruct (decide (output_format ∈ SUPPORTED_FORMATS)) as [Hf | Hf];
      [exact Hf|].
    rewrite convert_audio_unsupported in Hcall1 by exact Hf. discriminate. }
  rewrite convert_audio_supported in Hcall1, Hcall2 by exact Hf.
  (* first call *)
  destruct (prepare settings chunk1 speed1 text1 false normalizer1)
    as [e | prepared1]; [discriminate|].
  unfold encode in Hcall1. rewrite obtain_writer_eq in Hcall1.
  cbv zeta in Hcall1. fold key in Hcall1.
  destruct (writer_init output_format sample_rate) as [e | w]; [discriminate|].
  exists w. split; [reflexivity|].
  rewrite write_step_eq in Hcall1.
  destruct (0 <? length (audio prepared1))%nat eqn:Hlen1;
    [|rewrite finish_step_eq in Hcall1; discriminate].
  cbv zeta in Hcall1.
  destruct (write_chunk w (audio prepared1)) as [w1 [e | data1]] eqn:Hwrite1;
    [discriminate|].
  cbn [fst snd] in Hcall1. rewrite finish_step_eq in Hcall1.
  cbn in Hcall1. injection Hcall1 as <- <-.
  cbn [fst snd audio]. rewrite Hwrite1. cbn [fst snd].
  split; [intros E; rewrite E in Hlen1; discriminate|].
  split; [now rewrite or_empty_same|].
  cbn [_writers journal]. split; [apply lookup_insert_eq|].
  (* second call *)
  destruct (prepare settings chunk2 speed2 text2 true normalizer2)
    as [e | prepared2]; [discriminate|].
  unfold encode in Hcall2. rewrite obtain_writer_eq in Hcall2.
  cbv zeta in Hcall2. fold key in Hcall2. cbn [_writers] in Hcall2.
  rewrite lookup_insert_eq in Hcall2.
  rewrite write_step_eq in Hcall2. cbv zeta in Hcall2.
  destruct (0 <? length (audio prepared2))%nat eqn:Hlen2.
  - destruct (write_chunk w1 (audio prepared2)) as [w2 [e | data2]] eqn:Hwrite2;
      [discriminate|].
    cbn [fst snd] in Hcall2. rewrite finish_step_eq in Hcall2.
    cbv zeta in Hcall2.
    destruct (write_chunk_finalize w2) as [w3 [e | final]] eqn:Hfinal;
      [discriminate|].
    cbn in Hcall2. injection Hcall2 as <- <-.
    cbn [snd fst audio journal _writers]. rewrite Hlen2, Hwrite2.
    cbn [fst]. rewrite Hfinal. cbn [snd].
    split; [now rewrite or_empty_same|].
    split; [apply lookup_delete_eq|].
    split; [now rewrite <- app_assoc|]. now rewrite <- app_assoc.
  - rewrite finish_step_eq in Hcall2. cbv zeta in Hcall2.
    destruct (write_chunk_finalize w1) as [w3 [e | final]] eqn:Hfinal;
      [discriminate|].
    cbn in Hcall2. injection Hcall2 as <- <-.
    cbn [snd fst audio journal _writers]. rewrite Hlen2, Hfinal. cbn [snd].
    split; [now rewrite or_empty_same|].
    split; [apply lookup_delete_eq|].
    split; [now rewrite <- app_assoc | reflexivity].
Qed.

End Orchestrator.

Lemma unsupported_format_rejected_witness :
  ("midi" ∉ SUPPORTED_FORMATS) /\
  exists s',
    convert_audio (H := Examples.recording_writer) Examples.settings
      Examples.half_scale 24000 "midi" 1 "" true false None Examples.idle =
    (s', inl (Py.ValueError
                "Failed to convert audio stream to midi: Format midi not supported")) /\
    _writers s' = ∅.
Proof.
  assert ("midi" ∉ SUPPORTED_FORMATS) as Hf by (vm_compute; intros [=]).
  split; [exact Hf|].
  destruct (unsupported_format_rejected (H := Examples.recording_writer)
              Examples.settings Examples.half_scale 24000 "midi" 1 "" true false
              None Examples.idle Hf) as (s' & Hcall & Hmap & _).
  exists s'. split; [exact Hcall | exact Hmap].
Defined.

(** C9 fails as stated: the error that reaches the caller for ["midi"] is
    not the format error of line 145 but the handler's error around it. *)
Lemma midi_error_is_wrapped :
  snd (convert_audio (H := Examples.recording_writer) Examples.settings
         Examples.half_scale 24000 "midi" 1 "" true false None Examples.idle)
  = inl (conversion_failed "midi" (unsupported_format "midi")) /\
  conversion_failed "midi" (unsupported_format "midi")
  = Py.ValueError
      "Failed to convert audio stream to midi: Format midi not supported" /\
  unsupported_format "midi" = Py.ValueError "Format midi not supported" /\
  snd (convert_audio (H := Examples.recording_writer) Examples.settings
         Examples.half_scale 24000 "midi" 1 "" true false None Examples.idle)
  <> inl (unsupported_format "midi").
Proof.
  repeat split; try (vm_compute; reflexivity).
  vm_compute. discriminate.
Qed.

Lemma empty_chunk_write_result_unbound_witness :
  exists prepared s',
    prepare Examples.settings_no_gap_trim Examples.half_scale 1 "" false None
    = inr prepared /\
    audio prepared = [] /\
    convert_audio (H := Examples.recording_writer) Examples.settings_no_gap_trim
      Examples.half_scale 24000 "pcm" 1 "" true false None Examples.idle
    = (s', inl (conversion_failed "pcm" unbound_chunk_data)).
Proof.
  destruct (prepare Examples.settings_no_gap_trim Examples.half_scale 1 "" false
              None) as [e | prepared] eqn:Hprep;
    [vm_compute in Hprep; discriminate|].
  assert (audio prepared = []) as Hempty
    by (vm_compute in Hprep; injection Hprep as <-; reflexivity).
  destruct (empty_chunk_write_result_unbound
              (H := Examples.recording_writer) Examples.settings_no_gap_trim
              Examples.half_scale 24000 "pcm" 1 "" true None Examples.idle
              prepared Hprep Hempty) as (s' & cause & Hcall & Hcause).
  exists prepared, s'. split; [reflexivity|]. split; [exact Hempty|].
  rewrite Hcall. f_equal. f_equal. f_equal.
  destruct (obtain_writer (H := Examples.recording_writer) "pcm" 24000 true
              Examples.idle) as [s1 [e | w]] eqn:Hw;
    [vm_compute in Hw; discriminate|].
  assert ("pcm" ∈ SUPPORTED_FORMATS) as Hf
    by (apply (bool_decide_unpack _); vm_compute; exact I).
  exact (proj1 (Hcause Hf s1 w eq_refl)).
Defined.

Lemma failure_wrapped_writer_kept_witness :
  ("wav" ∈ SUPPORTED_FORMATS) /\
  exists s',
    convert_audio (H := Examples.failing_writer) Examples.settings
      Examples.half_scale 24000 "wav" 1 "" true false None Examples.idle
    = (s', inl (conversion_failed "wav" (Py.CollaboratorError "encoder error"))) /\
    _writers s' !! "wav_24000" = Some 1%nat.
Proof.
  assert ("wav" ∈ SUPPORTED_FORMATS) as Hf
    by (apply (bool_decide_unpack _); vm_compute; exact I).
  split; [exact Hf|].
  pose proof (failure_wrapped_writer_kept (H := Examples.failing_writer)
                Examples.settings Examples.half_scale 24000 "wav" 1 "" true
                false None Examples.idle Hf) as (_ & Hwrite & _).
  destruct (prepare Examples.settings Examples.half_scale 1 "" false None)
    as [e | prepared] eqn:Hprep; [vm_compute in Hprep; discriminate|].
  destruct (obtain_writer (H := Examples.failing_writer) "wav" 24000 true
              Examples.idle) as [s1 [e | w]] eqn:Hw;
    [vm_compute in Hw; discriminate|].
  assert (audio prepared <> []) as Hne
    by (vm_compute in Hprep; injection Hprep as <-; discriminate).
  destruct (Hwrite prepared s1 w (Py.CollaboratorError "encoder error")
              eq_refl eq_refl Hne eq_refl) as (s' & Hcall & Hkept).
  exists s'. split; [exact Hcall|].
  vm_compute in Hw. injection Hw as _ <-. exact Hkept.
Defined.

(** C1 fails as stated: after a write or a finalize that raised, the writer
    is still in the map under its key. *)
Lemma failed_call_leaves_writer :
  (exists s',
     convert_audio (H := Examples.failing_writer) Examples.settings
       Examples.half_scale 24000 "wav" 1 "" true false None Examples.idle
     = (s', inl (conversion_failed "wav" (Py.CollaboratorError "encoder error"))) /\
     _writers s' !! writer_key "wav" 24000 = Some 1%nat) /\
  (exists s',
     convert_audio (H := Examples.failing_finalizer) Examples.settings
       Examples.half_scale 24000 "wav" 1 "" true true None Examples.idle
     = (s', inl (conversion_failed "wav" (Py.CollaboratorError "flush error"))) /\
     _writers s' !! writer_key "wav" 24000 = Some 1%nat).
Proof.
  split; eexists; (split; [vm_compute; reflexivity | vm_compute; reflexivity]).
Qed.

Lemma two_chunk_session_lifecycle_witness :
  exists s1 s2 out1 out2,
    convert_audio (H := Examples.recording_writer) Examples.settings
      Examples.half_scale 24000 "wav" 1 "Hello," true false None Examples.idle
    = (s1, inr out1) /\
    convert_audio (H := Examples.recording_writer) Examples.settings
      Examples.half_scale 24000 "wav" 1 "world." false true None s1
    = (s2, inr out2) /\
    writer_key "wav" 24000 = "wav_24000" /\
    constructions (journal s2) = 1%nat /\
    finalizations (journal s2) = 1%nat /\
    _writers s2 !! "wav_24000" = None.
Proof.
  destruct (convert_audio (H := Examples.recording_writer) Examples.settings
              Examples.half_scale 24000 "wav" 1 "Hello," true false None
              Examples.idle) as [s1 [e | out1]] eqn:Hcall1;
    [vm_compute in Hcall1; discriminate|].
  destruct (convert_audio (H := Examples.recording_writer) Examples.settings
              Examples.half_scale 24000 "wav" 1 "world." false true None s1)
    as [s2 [e | out2]] eqn:Hcall2.
  { vm_compute in Hcall1. injection Hcall1 as <- _.
    vm_compute in Hcall2. discriminate. }
  exists s1, s2, out1, out2. split; [reflexivity|]. split; [exact Hcall2|].
  split; [reflexivity|].
  destruct (two_chunk_session_lifecycle (H := Examples.recording_writer)
              Examples.settings 24000 "wav" Examples.half_scale
              Examples.half_scale 1 1 "Hello," "world." None None
              Examples.idle s1 s2 out1 out2 Hcall1 Hcall2)
    as (constructed & _ & _ & _ & _ & _ & Hgone & Hj1 & Hj2).
  rewrite Hj2, Hj1. unfold constructions, finalizations.
  destruct (0 <? length (audio out2.2))%nat; cbn;
    (split; [reflexivity|]; split; [reflexivity | exact Hgone]).
Defined.

(** C2 fails as stated: two calls with non-empty buffers under ["wav_24000"],
    flagged first and last, with an encoder whose flush fails.  One writer
    is constructed and its finalize is requested once, but the second call
    raises and the key is still in the writer map afterwards. *)
Lemma raised_finalize_keeps_key :
  exists s1 out1 s2,
    audio Examples.half_scale <> [] /\
    convert_audio (H := Examples.failing_finalizer) Examples.settings
      Examples.half_scale 24000 "wav" 1 "Hello," true false None Examples.idle
    = (s1, inr out1) /\
    convert_audio (H := Examples.failing_finalizer) Examples.settings
      Examples.half_scale 24000 "wav" 1 "world." false true None s1
    = (s2, inl (conversion_failed "wav" (Py.CollaboratorError "flush error"))) /\
    constructions (journal s2) = 1%nat /\
    finalizations (journal s2) = 1%nat /\
    _writers s2 !! "wav_24000" = Some 2%nat.
Proof.
  eexists _, _, _. split; [discriminate|].
  split; [vm_compute; reflexivity|].
  split; [vm_compute; reflexivity|].
  split; [reflexivity|]. split; [reflexivity|]. vm_compute. reflexivity.
Qed.

End Claims.

(** * Further properties of the audio service *)

(** ** Comparisons of binary64 numbers *)

Module FloatFacts.

Lemma SFltb_asym (a b : spec_float) : SFltb a b = true -> SFltb b a = false.
Proof.
  unfold SFltb, SFcompare.
  destruct a as [sa | sa | | sa ma ea], b as [sb | sb | | sb mb eb];
    try discriminate; try reflexivity;
    try (destruct sa; discriminate || reflexivity);
    try (destruct sb; discriminate || reflexivity);
    try (destruct sa, sb; discriminate || reflexivity).
  destruct sa, sb; try discriminate; try reflexivity.
  - rewrite (Z.compare_antisym ea eb).
    destruct (ea ?= eb); cbn [CompOpp]; try discriminate; try reflexivity.
    change (Pos.compare_cont Eq mb ma) with (mb ?= ma)%positive.
    change (Pos.compare_cont Eq ma mb) with (ma ?= mb)%positive.
    rewrite (Pos.compare_antisym ma mb).
    destruct (ma ?= mb)%positive; cbn [CompOpp]; discriminate || reflexivity.
  - rewrite (Z.compare_antisym ea eb).
    destruct (ea ?= eb); cbn [CompOpp]; try discriminate; try reflexivity.
    change (Pos.compare_cont Eq mb ma) with (mb ?= ma)%positive.
    change (Pos.compare_cont Eq ma mb) with (ma ?= mb)%positive.
    rewrite (Pos.compare_antisym ma mb).
    destruct (ma ?= mb)%positive; cbn [CompOpp]; discriminate || reflexivity.
Qed.

Lemma ltb_asym (x y : float) :
  PrimFloat.ltb x y = true -> PrimFloat.ltb y x = false.
Proof. rewrite !ltb_spec. apply SFltb_asym. Qed.

Lemma ltb_not_nan (x y : float) :
  PrimFloat.ltb x y = true -> is_nan x = false /\ is_nan y = false.
Proof.
  rewrite ltb_spec. unfold Prim2SF.
  destruct (is_nan x); [discriminate|].
  destruct (is_nan y); [|auto].
  unfold SFltb, SFcompare.
  destruct (if is_zero x then _ else _); discriminate.
Qed.

(** Above the upper clip bound is above the lower one, and conversely. *)
Lemma above_hi_above_lo (f : spec_float) :
  SFltb (Prim2SF NormalizeFacts.hi) f = true ->
  SFltb (Prim2SF NormalizeFacts.lo) f = true.
Proof.
  replace (Prim2SF NormalizeFacts.lo)
    with (S754_finite true 4503599627370496 (-37)) by (vm_compute; reflexivity).
  replace (Prim2SF NormalizeFacts.hi)
    with (S754_finite false 9006924376834048 (-38)) by (vm_compute; reflexivity).
  destruct f as [s | s | | s m e]; try discriminate.
  - destruct s; [discriminate | reflexivity].
  - destruct s; [discriminate | reflexivity].
Qed.

Lemma clip_above (p : float) :
  PrimFloat.ltb NormalizeFacts.hi p = true ->
  Np.clip p NormalizeFacts.lo NormalizeFacts.hi = NormalizeFacts.hi.
Proof.
  intros Hp. unfold Np.clip, Np.npy_max, Np.npy_min.
  destruct (ltb_not_nan _ _ Hp) as [_ Hnan]. rewrite Hnan.
  assert (PrimFloat.ltb NormalizeFacts.lo p = true) as ->
    by (rewrite ltb_spec in *; now apply above_hi_above_lo).
  rewrite Hnan. now rewrite (ltb_asym _ _ Hp).
Qed.

Lemma clip_below (p : float) :
  PrimFloat.ltb p NormalizeFacts.lo = true ->
  Np.clip p NormalizeFacts.lo NormalizeFacts.hi = NormalizeFacts.lo.
Proof.
  intros Hp. unfold Np.clip, Np.npy_max, Np.npy_min.
  destruct (ltb_not_nan _ _ Hp) as [Hnan _]. rewrite Hnan.
  rewrite (ltb_asym _ _ Hp). reflexivity.
Qed.

End FloatFacts.

(** ** Slices, blank text and pads *)

Module MoreFacts.

Import Normalizer LocatorFacts PadFacts Service.

Lemma slice_parts {A} (l : list A) (start stop : Z) :
  exists head tail, l = head ++ Py.slice l start stop ++ tail.
Proof.
  unfold Py.slice.
  set (lo := Z.to_nat (Py.slice_index (Z.of_nat (length l)) start)).
  set (hi := Z.to_nat (Py.slice_index (Z.of_nat (length l)) stop)).
  exists (take lo (take hi l)), (drop hi l).
  rewrite app_assoc, take_drop. apply eq_sym, take_drop.
Qed.

Lemma trim_ends_parts normalizer (samples : list Z) :
  exists head tail, samples = head ++ trim_ends normalizer samples ++ tail.
Proof.
  unfold trim_ends.
  destruct (2 * samples_to_trim normalizer <? Z.of_nat (length samples)).
  - apply slice_parts.
  - exists [], []. now rewrite app_nil_r.
Qed.

(** A fixed trim of [t > 0] samples on a buffer longer than [2 t]. *)
Lemma trim_ends_long normalizer (samples : list Z) :
  0 < samples_to_trim normalizer ->
  2 * samples_to_trim normalizer < Z.of_nat (length samples) ->
  trim_ends normalizer samples =
  take (length samples - 2 * Z.to_nat (samples_to_trim normalizer))
       (drop (Z.to_nat (samples_to_trim normalizer)) samples).
Proof.
  intros Ht Hlen. unfold trim_ends.
  replace (2 * samples_to_trim normalizer <? Z.of_nat (length samples)) with true
    by (symmetry; apply Z.ltb_lt; exact Hlen).
  unfold Py.slice, Py.slice_index.
  replace (samples_to_trim normalizer <? 0) with false
    by (symmetry; apply Z.ltb_ge; lia).
  replace (- samples_to_trim normalizer <? 0) with true
    by (symmetry; apply Z.ltb_lt; lia).
  rewrite Z.min_l, Z.max_l by lia.
  rewrite take_drop_commute. f_equal. f_equal. lia.
Qed.

Lemma lstrip_blank (s : string) : Text.blank s = true -> Py.lstrip s = EmptyString.
Proof.
  induction s as [|c s IH]; [reflexivity|]. cbn [Text.blank Py.lstrip].
  intros Hb. apply andb_prop in Hb as [Hc Hs]. rewrite Hc. auto.
Qed.

Lemma rstrip_blank (s : string) : Text.blank s = true -> Py.rstrip s = EmptyString.
Proof.
  induction s as [|c s IH]; [reflexivity|]. cbn [Text.blank Py.rstrip].
  intros Hb. apply andb_prop in Hb as [Hc Hs]. now rewrite IH, Hc.
Qed.

(** [rstrip] of a text that ends in a visible character and blanks. *)
Lemma rstrip_visible (pre : string) (c : ascii) (ws : string) :
  Py.isspace c = false -> Text.blank ws = true ->
  Py.rstrip (pre +:+ String c ws) = pre +:+ String c EmptyString.
Proof.
  intros Hc Hws. induction pre as [|a pre IH].
  - change (EmptyString +:+ String c ws) with (String c ws).
    cbn [Py.rstrip]. now rewrite (rstrip_blank ws Hws), Hc.
  - change (String a pre +:+ String c ws) with (String a (pre +:+ String c ws)).
    cbn [Py.rstrip]. rewrite IH.
    destruct pre; reflexivity.
Qed.

Lemma last_char_visible (pre : string) (c : ascii) :
  Py.last_char (pre +:+ String c EmptyString) = Some (String c EmptyString).
Proof.
  induction pre as [|a pre IH]; [reflexivity|].
  change (String a pre +:+ String c EmptyString)
    with (String a (pre +:+ String c EmptyString)).
  cbn [Py.last_char]. rewrite IH. destruct pre; reflexivity.
Qed.

(** [lstrip] stops at the first visible character at the latest. *)
Lemma lstrip_visible (pre : string) (c : ascii) (ws : string) :
  Py.isspace c = false ->
  exists pre', Py.lstrip (pre +:+ String c ws) = pre' +:+ String c ws.
Proof.
  intros Hc. induction pre as [|a pre IH].
  - exists EmptyString. change (EmptyString +:+ String c ws) with (String c ws).
    cbn [Py.lstrip]. now rewrite Hc.
  - change (String a pre +:+ String c ws) with (String a (pre +:+ String c ws)).
    cbn [Py.lstrip]. destruct (Py.isspace a).
    + exact IH.
    + exists (String a pre). reflexivity.
Qed.

Lemma strip_last_visible (pre : string) (c : ascii) (ws : string) :
  Py.isspace c = false -> Text.blank ws = true ->
  Py.last_char (Py.strip (pre +:+ String c ws)) = Some (String c EmptyString).
Proof.
  intros Hc Hws. unfold Py.strip.
  destruct (lstrip_visible pre c ws Hc) as (pre' & ->).
  rewrite (rstrip_visible pre' c ws Hc Hws). apply last_char_visible.
Qed.

Lemma strip_blank (s : string) :
  Text.blank s = true -> Py.strip s = EmptyString.
Proof. intros Hs. unfold Py.strip. now rewrite (lstrip_blank s Hs). Qed.



End MoreFacts.

(** ** Normaliser, locator and trimmer *)

Module Extras.

Import Normalizer LocatorFacts PadFacts Service ServiceFacts MoreFacts.

(** X1.  [normalize] saturates: a sample whose product with 32767 compares
    above 32767 becomes 32767 and one whose product compares below -32768
    becomes -32768; the conversion to int16 never wraps around. *)
Theorem normalize_saturates
    (self : AudioNormalizer) (audio_data : list float) (out : list Z)
    (i : nat) (x : float) :
  normalize self audio_data = inr out ->
  audio_data !! i = Some x ->
  (PrimFloat.ltb 32767 (x * 32767) = true -> out !! i = Some 32767) /\
  (PrimFloat.ltb (x * 32767) (-32768) = true -> out !! i = Some (-32768)).
Proof.
  unfold normalize. destruct (length audio_data =? 0)%nat; [discriminate|].
  intros [= <-] Hx. rewrite list_lookup_fmap, Hx. cbn [fmap option_fmap option_map].
  split; intros Hp.
  - pose proof (FloatFacts.clip_above (x * 32767) Hp) as Hc.
    unfold NormalizeFacts.hi, NormalizeFacts.lo in Hc. rewrite Hc. reflexivity.
  - pose proof (FloatFacts.clip_below (x * 32767) Hp) as Hc.
    unfold NormalizeFacts.hi, NormalizeFacts.lo in Hc. rewrite Hc. reflexivity.
Qed.

Lemma normalize_saturates_witness :
  normalize (init Examples.settings) [2; -3]%float = inr [32767; -32768].
Proof.
  destruct (normalize (init Examples.settings) [2; -3]%float) as [e | out] eqn:Hn;
    [vm_compute in Hn; discriminate|].
  destruct (normalize_saturates _ _ out 0%nat 2%float Hn eq_refl) as [Hhi _].
  destruct (normalize_saturates _ _ out 1%nat (-3)%float Hn eq_refl) as [_ Hlo].
  specialize (Hhi eq_refl). specialize (Hlo eq_refl).
  assert (length out = 2%nat) as Hlen
    by (vm_compute in Hn; injection Hn as <-; reflexivity).
  destruct out as [|a [|b [|c out]]]; try discriminate Hlen.
  cbn in Hhi, Hlo. congruence.
Defined.

(** X2.  Whatever [trim_audio] returns is a contiguous stretch of the input
    buffer: samples are only dropped from the two ends, never changed or
    reordered, so the result is no longer than the input. *)
Theorem trim_audio_keeps_contiguous_part
    (settings : Settings) (audio_chunk : AudioChunk Z) (chunk_text : string)
    (speed : Q) (is_last_chunk : bool) (normalizer : option AudioNormalizer)
    (trimmed : AudioChunk Z) :
  trim_audio settings audio_chunk chunk_text speed is_last_chunk normalizer
  = inr trimmed ->
  (exists head tail, audio audio_chunk = head ++ audio trimmed ++ tail) /\
  (length (audio trimmed) <= length (audio audio_chunk))%nat.
Proof.
  unfold trim_audio.
  set (n := match normalizer with Some n => n | None => init settings end).
  destruct (find_first_last_non_silent _ _ _ _ _ _ _)
    as [e | [start_index end_index]]; [discriminate|].
  intros [= <-]. cbn [audio].
  destruct (trim_ends_parts n (audio audio_chunk)) as (h1 & t1 & H1).
  destruct (slice_parts (trim_ends n (audio audio_chunk)) start_index end_index)
    as (h2 & t2 & H2).
  assert (audio audio_chunk =
          (h1 ++ h2) ++ Py.slice (trim_ends n (audio audio_chunk))
                          start_index end_index ++ (t2 ++ t1)) as Hparts.
  { rewrite H1 at 1. rewrite H2 at 1. now rewrite <- !app_assoc. }
  split; [eauto|].
  rewrite Hparts at 2. rewrite !length_app. lia.
Qed.

Lemma trim_audio_keeps_contiguous_part_witness :
  exists trimmed,
    trim_audio Examples.settings Examples.spoken "hi" 1 false None = inr trimmed /\
    (length (audio trimmed) <= length (audio Examples.spoken))%nat.
Proof.
  destruct (trim_audio Examples.settings Examples.spoken "hi" 1 false None)
    as [e | trimmed] eqn:Htrim; [vm_compute in Htrim; discriminate|].
  exists trimmed. split; [reflexivity|].
  exact (proj2 (trim_audio_keeps_contiguous_part _ _ _ _ _ _ _ Htrim)).
Defined.

(** X3.  On a buffer with a loud sample the range starts at or before the
    first loud sample, and it reaches past the last loud sample exactly when
    the rounded trailing pad is positive: with a pad of zero the range ends
    at the last loud index, which the slice then leaves out. *)
Theorem locator_range_around_loud
    (settings : Settings) (self : AudioNormalizer) (audio_data : list Z)
    (chunk_text : string) (speed : Q) (silence_threshold_db : Z)
    (is_last_chunk : bool) (first last pad : Z) :
  0 <= samples_to_pad_start self ->
  first_loud (above_threshold silence_threshold_db) audio_data first ->
  last_loud (above_threshold silence_threshold_db) audio_data last ->
  trailing_pad
    (samples_to_pad_end settings self (pad_multiplier settings chunk_text)
       is_last_chunk) speed = inr pad ->
  exists start_index end_index,
    find_first_last_non_silent settings self audio_data chunk_text speed
      silence_threshold_db is_last_chunk = inr (start_index, end_index) /\
    0 <= start_index <= first /\
    (last < end_index <-> 0 < pad) /\
    (pad = 0 -> end_index = last).
Proof.
  intros Hp Hf Hl Hpad.
  rewrite (locate_loud settings self audio_data chunk_text speed
             silence_threshold_db is_last_chunk first last Hf Hl), Hpad.
  pose proof (first_le_last _ _ _ _ Hf Hl) as Hfl.
  destruct Hf as (Hf0 & _).
  eexists _, _. split; [reflexivity|]. repeat split; lia.
Qed.

Lemma locator_range_around_loud_witness :
  find_first_last_non_silent Examples.settings (init Examples.settings)
    Examples.click "" 2 (-45) true = inr (0, 600).
Proof.
  assert (first_loud (above_threshold (-45)) Examples.click 0) as Hf
    by (apply scan_up_first_iff; vm_compute; reflexivity).
  assert (last_loud (above_threshold (-45)) Examples.click 0) as Hl
    by (apply scan_down_last_iff; vm_compute; reflexivity).
  destruct (locator_range_around_loud Examples.settings (init Examples.settings)
              Examples.click "" 2 (-45) true 0 0 600
              ltac:(vm_compute; discriminate) Hf Hl eq_refl)
    as (start_index & end_index & Hloc & _).
  rewrite Hloc. vm_compute in Hloc. congruence.
Defined.






(** X6.  At speed zero the locator raises [ZeroDivisionError] exactly when
    the buffer has a sample above the threshold; on a silent buffer the
    division is never reached and [(0, len)] is returned. *)
Theorem locator_at_zero_speed
    (settings : Settings) (self : AudioNormalizer) (audio_data : list Z)
    (chunk_text : string) (speed : Q) (silence_threshold_db : Z)
    (is_last_chunk : bool) :
  (speed == 0)%Q ->
  let locate :=
    find_first_last_non_silent settings self audio_data chunk_text speed
      silence_threshold_db is_last_chunk in
  (silent (above_threshold silence_threshold_db) audio_data ->
   locate = inr (0, Z.of_nat (length audio_data))) /\
  (~ silent (above_threshold silence_threshold_db) audio_data ->
   locate = inl (Py.ZeroDivisionError "division by zero")).
Proof.
  intros Hz locate. subst locate. split.
  - apply locate_silent.
  - intros Hloud.
    destruct (silent_or_loud audio_data silence_threshold_db)
      as [Hsil | (first & last & Hf & Hl)]; [contradiction|].
    rewrite (locate_loud settings self audio_data chunk_text speed
               silence_threshold_db is_last_chunk first last Hf Hl).
    unfold trailing_pad. now rewrite truediv_zero.
Qed.

Lemma locator_at_zero_speed_witness :
  find_first_last_non_silent Examples.settings (init Examples.settings)
    [10; 20] "" 0 (-45) false = inr (0, 2).
Proof.
  apply (locator_at_zero_speed Examples.settings (init Examples.settings)
           [10; 20] "" 0 (-45) false (Qeq_refl 0)).
  apply (scan_up_none _ _ 0). reflexivity.
Defined.

(** X7.  The pad multiplier depends on the last visible character alone:
    for a text that ends in a non-blank character followed by blanks it is
    the table entry of that character, 1 when the table has none, whatever
    comes before; and it is 1 for a blank or empty text. *)
Theorem pad_multiplier_last_visible_char
    (settings : Settings) (before : string) (c : ascii) (blanks : string) :
  Text.blank blanks = true ->
  (Py.isspace c = false ->
   pad_multiplier settings (before +:+ String c blanks) =
   match dynamic_gap_trim_padding_char_multiplier settings
           !! String c EmptyString with
   | Some m => m
   | None => 1%Q
   end) /\
  pad_multiplier settings blanks = 1%Q.
Proof.
  intros Hb. split.
  - intros Hc. unfold pad_multiplier.
    now rewrite (strip_last_visible before c blanks Hc Hb).
  - unfold pad_multiplier. now rewrite (strip_blank blanks Hb).
Qed.

Lemma pad_multiplier_last_visible_char_witness :
  pad_multiplier Examples.settings "Hello, world,  " = 2%Q.
Proof.
  exact (proj1 (pad_multiplier_last_visible_char Examples.settings
                  "Hello, world" "," "  " eq_refl) eq_refl).
Defined.

(** X8.  At the default threshold of -45 dB, which is the one [trim_audio]
    uses, a buffer counts as silent exactly when no sample exceeds 184. *)
Theorem default_threshold_silence (audio_data : list Z) :
  silent (above_threshold default_silence_threshold_db) audio_data <->
  Forall (fun x => x <= 184) audio_data.
Proof.
  rewrite Forall_lookup. unfold silent. split; intros Hs j a Ha.
  - specialize (Hs j a Ha). rewrite above_default_threshold in Hs.
    apply Z.leb_gt in Hs. lia.
  - specialize (Hs j a Ha). cbv beta in Hs. rewrite above_default_threshold.
    apply Z.leb_gt. lia.
Qed.

(** X9.  A normaliser whose fixed trim is zero samples empties every
    non-empty buffer, because [audio[0:-0]] is [audio[0:0]]: [trim_audio]
    then returns an empty buffer at any speed, with the timestamps shifted
    by zero. *)
Theorem zero_gap_trim_empties_chunk
    (settings : Settings) (audio_chunk : AudioChunk Z) (chunk_text : string)
    (speed : Q) (is_last_chunk : bool) (normalizer : option AudioNormalizer) :
  samples_to_trim
    (match normalizer with Some n => n | None => init settings end) = 0 ->
  audio audio_chunk <> [] ->
  trim_audio settings audio_chunk chunk_text speed is_last_chunk normalizer =
  inr {| audio := [];
         word_timestamps :=
           match word_timestamps audio_chunk with
           | Some l => Some (map (rebase 0) l)
           | None => None
           end |}.
Proof.
  intros Hz Hne. unfold trim_audio.
  rewrite (TrimFacts.trim_ends_zero _ _ Hz Hne). reflexivity.
Qed.

Lemma zero_gap_trim_empties_chunk_witness :
  trim_audio Examples.settings_no_gap_trim Examples.spoken "hi" 1 false None =
  inr {| audio := [];
         word_timestamps :=
           Some [ {| word := "hi";
                     start_time := (0 - inject_Z 0 / 24000)%Q;
                     end_time := ((1 # 100) - inject_Z 0 / 24000)%Q |} ] |}.
Proof.
  exact (zero_gap_trim_empties_chunk Examples.settings_no_gap_trim
           Examples.spoken "hi" 1 false None eq_refl ltac:(discriminate)).
Defined.

(** X10.  The fixed trim is not reflected in the timestamps.  On a chunk
    that is silent once a positive fixed trim has removed [samples_to_trim]
    samples from each end, the buffer loses those samples and every
    timestamp keeps its value. *)
Theorem fixed_trim_leaves_timestamps
    (settings : Settings) (audio_chunk : AudioChunk Z) (chunk_text : string)
    (speed : Q) (is_last_chunk : bool) (normalizer : option AudioNormalizer) :
  let n := match normalizer with Some n => n | None => init settings end in
  0 < samples_to_trim n ->
  2 * samples_to_trim n < Z.of_nat (length (audio audio_chunk)) ->
  silent (above_threshold default_silence_threshold_db)
    (trim_ends n (audio audio_chunk)) ->
  exists trimmed,
    trim_audio settings audio_chunk chunk_text speed is_last_chunk normalizer
    = inr trimmed /\
    audio trimmed =
      take (length (audio audio_chunk) - 2 * Z.to_nat (samples_to_trim n))
           (drop (Z.to_nat (samples_to_trim n)) (audio audio_chunk)) /\
    forall before, word_timestamps audio_chunk = Some before ->
      exists after,
        word_timestamps trimmed = Some after /\
        Forall2 (fun t t' => word t' = word t /\
                             (start_time t' == start_time t)%Q /\
                             (end_time t' == end_time t)%Q) before after.
Proof.
  intros n Ht Hlen Hsil. unfold trim_audio. fold n.
  rewrite (locate_silent settings n _ chunk_text speed
             default_silence_threshold_db is_last_chunk Hsil).
  eexists. split; [reflexivity|]. cbn [audio word_timestamps]. split.
  - rewrite TrimFacts.slice_whole. now apply trim_ends_long.
  - intros before ->. eexists. split; [reflexivity|].
    induction before as [|t before IH]; constructor; [|exact IH].
    cbn [rebase word start_time end_time].
    split; [reflexivity|]. split; unfold Qminus, Qdiv;
      change (inject_Z 0 * / 24000)%Q with (0 # 24000)%Q;
      rewrite <- (Qplus_0_r (_ t)) at 2; apply Qplus_comp;
      try apply Qeq_refl; reflexivity.
Qed.

Lemma fixed_trim_leaves_timestamps_witness :
  exists trimmed,
    trim_audio Examples.settings
      {| audio := repeat 5 100;
         word_timestamps :=
           Some [ {| word := "a"; start_time := 1 # 2; end_time := 1 |} ] |}
      "" 1 false None = inr trimmed /\
    length (audio trimmed) = 52%nat.
Proof.
  destruct (fixed_trim_leaves_timestamps Examples.settings
              {| audio := repeat 5 100;
                 word_timestamps :=
                   Some [ {| word := "a"; start_time := 1 # 2; end_time := 1 |} ] |}
              "" 1 false None eq_refl eq_refl)
    as (trimmed & Htrim & Haudio & _).
  { apply (scan_up_none _ _ 0). vm_compute. reflexivity. }
  exists trimmed. split; [exact Htrim|]. rewrite Haudio. reflexivity.
Defined.

Lemma or_empty_id (data : list Byte.byte) : or_empty data = data.
Proof. destruct data; reflexivity. Qed.

(** Samples prepared for the writer are int16 values. *)
Lemma prepare_int16 settings (audio_chunk : AudioChunk float) speed chunk_text
    is_last_chunk normalizer (prepared : AudioChunk Z) :
  prepare settings audio_chunk speed chunk_text is_last_chunk normalizer
  = inr prepared ->
  Forall NormalizeFacts.in_int16 (audio prepared) /\
  (length (audio prepared) <= length (audio audio_chunk))%nat.
Proof.
  unfold prepare, normalize.
  destruct (length (audio audio_chunk) =? 0)%nat; [discriminate|].
  unfold trim_audio.
  set (n := match normalizer with Some n => n | None => init settings end).
  cbn [audio word_timestamps].
  set (samples := map _ (audio audio_chunk)).
  destruct (find_first_last_non_silent _ _ _ _ _ _ _)
    as [e | [start_index end_index]]; [discriminate|].
  intros [= <-]. cbn [audio].
  assert (Forall NormalizeFacts.in_int16 samples) as Hall.
  { apply Forall_forall. intros z Hz. apply list_elem_of_In, in_map_iff in Hz.
    destruct Hz as (y & <- & _).
    exact (proj1 (NormalizeFacts.astype_after_clip (y * 32767)%float)). }
  assert (length samples = length (audio audio_chunk)) as Hlen
    by apply length_map.
  destruct (trim_ends_parts n samples) as (h1 & t1 & H1).
  destruct (slice_parts (trim_ends n samples) start_index end_index)
    as (h2 & t2 & H2).
  remember (trim_ends n samples) as ends eqn:Hends.
  remember (Py.slice ends start_index end_index) as kept eqn:Hkept.
  clear Hends Hkept. subst ends. rewrite <- Hlen. subst samples.
  rewrite H1 in Hall |- *. rewrite !Forall_app in Hall. rewrite !length_app.
  split; [tauto | lia].
Qed.

Section MoreOrchestrator.

Context `{StreamingAudioWriter}.
Variable settings : Settings.

Lemma obtain_writer_frame output_format sample_rate is_first_chunk s s1 r k :
  obtain_writer output_format sample_rate is_first_chunk s = (s1, r) ->
  k <> writer_key output_format sample_rate ->
  _writers s1 !! k = _writers s !! k.
Proof.
  rewrite obtain_writer_eq. cbv zeta. intros Hw Hk.
  destruct (if is_first_chunk then None else _) as [w|].
  - now injection Hw as <- _.
  - destruct (writer_init output_format sample_rate) as [e | w].
    + now injection Hw as <- _.
    + injection Hw as <- _. cbn [_writers]. now apply lookup_insert_ne.
Qed.

Lemma write_step_frame key samples w s s2 r k :
  write_step key samples w s = (s2, r) -> k <> key ->
  _writers s2 !! k = _writers s !! k.
Proof.
  rewrite write_step_eq. intros Hw Hk.
  destruct (0 <? length samples)%nat; [|now injection Hw as <- _].
  cbv zeta in Hw.
  destruct ((write_chunk w samples).2); injection Hw as <- _; cbn [_writers];
    now apply lookup_insert_ne.
Qed.

Lemma finish_step_frame key is_last_chunk w chunk_data s s3 r k :
  finish_step key is_last_chunk w chunk_data s = (s3, r) -> k <> key ->
  _writers s3 !! k = _writers s !! k.
Proof.
  rewrite finish_step_eq. intros Hw Hk. destruct is_last_chunk.
  - cbv zeta in Hw.
    destruct ((write_chunk_finalize w).2); injection Hw as <- _; cbn [_writers].
    + now apply lookup_insert_ne.
    + rewrite lookup_delete_ne by congruence. now apply lookup_insert_ne.
  - destruct chunk_data; now injection Hw as <- _.
Qed.

Lemma encode_frame prepared sample_rate output_format is_first_chunk
    is_last_chunk s s' r k :
  encode prepared sample_rate output_format is_first_chunk is_last_chunk s
  = (s', r) ->
  k <> writer_key output_format sample_rate ->
  _writers s' !! k = _writers s !! k.
Proof.
  unfold encode. intros He Hk.
  destruct (obtain_writer output_format sample_rate is_first_chunk s)
    as [s1 [e | w]] eqn:H1.
  - injection He as <- _. eapply obtain_writer_frame; eassumption.
  - destruct (write_step _ _ w s1) as [s2 [e | [w2 chunk_data]]] eqn:H2.
    + injection He as <- _.
      rewrite (write_step_frame _ _ _ _ _ _ _ H2 Hk).
      eapply obtain_writer_frame; eassumption.
    + destruct (finish_step _ _ w2 chunk_data s2) as [s3 [e | data]] eqn:H3;
        injection He as <- _;
        rewrite (finish_step_frame _ _ _ _ _ _ _ _ H3 Hk),
                (write_step_frame _ _ _ _ _ _ _ H2 Hk);
        eapply obtain_writer_frame; eassumption.
Qed.

Lemma handled_writers {A} output_format (out : state * Py.result A) :
  _writers (handled output_format out).1 = _writers out.1.
Proof. destruct out as [s [e | a]]; reflexivity. Qed.

(** X11.  A call touches the writer map under its own key only: whether it
    returns or raises, every entry under another key is as it was. *)
Theorem convert_audio_touches_one_key
    (audio_chunk : AudioChunk float) (sample_rate : Z) (output_format : string)
    (speed : Q) (chunk_text : string) (is_first_chunk is_last_chunk : bool)
    (normalizer : option AudioNormalizer) (s s' : state)
    (r : Py.result (list Byte.byte * AudioChunk Z)) (k : string) :
  convert_audio settings audio_chunk sample_rate output_format speed chunk_text
    is_first_chunk is_last_chunk normalizer s = (s', r) ->
  k <> writer_key output_format sample_rate ->
  _writers s' !! k = _writers s !! k.
Proof.
  intros Hcall Hk.
  destruct (decide (output_format ∈ SUPPORTED_FORMATS)) as [Hf | Hf].
  - rewrite convert_audio_supported in Hcall by exact Hf.
    assert (_writers s' = _writers (handled output_format
      match prepare settings audio_chunk speed chunk_text is_last_chunk normalizer with
      | inl e => (s, inl e)
      | inr prepared =>
          encode prepared sample_rate output_format is_first_chunk is_last_chunk s
      end).1) as -> by now rewrite Hcall.
    rewrite handled_writers.
    destruct (prepare settings audio_chunk speed chunk_text is_last_chunk normalizer)
      as [e | prepared]; [reflexivity|].
    destruct (encode prepared sample_rate output_format is_first_chunk
                is_last_chunk s) as [s3 r3] eqn:He.
    exact (encode_frame _ _ _ _ _ _ _ _ _ He Hk).
  - rewrite convert_audio_unsupported in Hcall by exact Hf.
    now injection Hcall as <- _.
Qed.

End MoreOrchestrator.

Lemma convert_audio_touches_one_key_witness :
  exists s' r,
    convert_audio (H := Examples.recording_writer) Examples.settings
      Examples.half_scale 24000 "wav" 1 "" true false None
      {| _writers := {[ "mp3_24000" := [7] ]}; journal := [] |} = (s', r) /\
    _writers s' !! "mp3_24000" = Some [7].
Proof.
  destruct (convert_audio (H := Examples.recording_writer) Examples.settings
              Examples.half_scale 24000 "wav" 1 "" true false None
              {| _writers := {[ "mp3_24000" := [7] ]}; journal := [] |})
    as [s' r] eqn:Hcall.
  exists s', r. split; [reflexivity|].
  etransitivity;
    [exact (convert_audio_touches_one_key (H := Examples.recording_writer)
              _ _ _ _ _ _ _ _ _ _ _ _ "mp3_24000" Hcall ltac:(discriminate))
    | reflexivity].
Defined.

(** X12.  Among the supported formats the writer key identifies the
    (format, sample rate) pair: two calls share a key only when they name
    the same format and the same rate. *)
Theorem writer_key_identifies_session
    (format1 format2 : string) (rate1 rate2 : Z) :
  format1 ∈ SUPPORTED_FORMATS -> format2 ∈ SUPPORTED_FORMATS ->
  writer_key format1 rate1 = writer_key format2 rate2 ->
  format1 = format2 /\ rate1 = rate2.
Proof.
  unfold SUPPORTED_FORMATS, writer_key. intros H1 H2 Hk.
  repeat rewrite elem_of_union in H1. repeat rewrite elem_of_singleton in H1.
  repeat rewrite elem_of_union in H2. repeat rewrite elem_of_singleton in H2.
  destruct_or!; subst format1 format2;
    cbn in Hk; try discriminate Hk;
    (split; [reflexivity|]); injection Hk as Hk;
    exact (pretty_Z_inj _ _ Hk).
Qed.

Lemma writer_key_identifies_session_witness :
  "wav" ∈ SUPPORTED_FORMATS /\
  writer_key "wav" 24000 = writer_key "wav" 24000 /\
  (24000 = 24000).
Proof.
  assert ("wav" ∈ SUPPORTED_FORMATS) as Hf
    by (apply (bool_decide_unpack _); vm_compute; exact I).
  split; [exact Hf|]. split; [reflexivity|].
  exact (proj2 (writer_key_identifies_session "wav" "wav" 24000 24000 Hf Hf eq_refl)).
Defined.

Section SessionProperties.

Context `{StreamingAudioWriter}.
Variable settings : Settings.

(** A call that returns has gone through every stage. *)
Lemma convert_audio_returns
    (audio_chunk : AudioChunk float) (sample_rate : Z) (output_format : string)
    (speed : Q) (chunk_text : string) (is_first_chunk is_last_chunk : bool)
    (normalizer : option AudioNormalizer) (s s' : state)
    (data : list Byte.byte) (out : AudioChunk Z) :
  convert_audio settings audio_chunk sample_rate output_format speed chunk_text
    is_first_chunk is_last_chunk normalizer s = (s', inr (data, out)) ->
  let key := writer_key output_format sample_rate in
  exists s1 w s2 w2 chunk_data,
    output_format ∈ SUPPORTED_FORMATS /\
    prepare settings audio_chunk speed chunk_text is_last_chunk normalizer
    = inr out /\
    obtain_writer output_format sample_rate is_first_chunk s = (s1, inr w) /\
    write_step key (audio out) w s1 = (s2, inr (w2, chunk_data)) /\
    finish_step key is_last_chunk w2 chunk_data s2 = (s', inr data).
Proof.
  intros Hcall key.
  destruct (decide (output_format ∈ SUPPORTED_FORMATS)) as [Hf | Hf];
    [|rewrite convert_audio_unsupported in Hcall by exact Hf; discriminate].
  rewrite convert_audio_supported in Hcall by exact Hf.
  destruct (prepare settings audio_chunk speed chunk_text is_last_chunk normalizer)
    as [e | prepared]; [discriminate|].
  unfold encode in Hcall. fold key in Hcall.
  destruct (obtain_writer output_format sample_rate is_first_chunk s)
    as [s1 [e | w]]; [discriminate|].
  destruct (write_step key (audio prepared) w s1)
    as [s2 [e | [w2 chunk_data]]] eqn:Hw; [discriminate|].
  destruct (finish_step key is_last_chunk w2 chunk_data s2)
    as [s3 [e | data']] eqn:Hfin; [discriminate|].
  cbn in Hcall. injection Hcall as <- <- <-.
  exists s1, w, s2, w2, chunk_data. rewrite Hw. auto.
Qed.

(** X13.  The bytes a call returns.  On a chunk that is not the last they
    are what the write returned.  On a last chunk they are what the finalize
    returned and nothing else: the bytes that the write of that same call
    produced are not part of the result. *)
Theorem returned_bytes
    (audio_chunk : AudioChunk float) (sample_rate : Z) (output_format : string)
    (speed : Q) (chunk_text : string) (is_first_chunk is_last_chunk : bool)
    (normalizer : option AudioNormalizer) (s s' : state)
    (data : list Byte.byte) (out : AudioChunk Z) :
  convert_audio settings audio_chunk sample_rate output_format speed chunk_text
    is_first_chunk is_last_chunk normalizer s = (s', inr (data, out)) ->
  exists s1 w,
    obtain_writer output_format sample_rate is_first_chunk s = (s1, inr w) /\
    (is_last_chunk = false ->
     audio out <> [] /\ (write_chunk w (audio out)).2 = inr data) /\
    (is_last_chunk = true ->
     (write_chunk_finalize
        (if (0 <? length (audio out))%nat
         then (write_chunk w (audio out)).1 else w)).2 = inr data).
Proof.
  intros Hcall.
  destruct (convert_audio_returns _ _ _ _ _ _ _ _ _ _ _ _ Hcall)
    as (s1 & w & s2 & w2 & chunk_data & _ & _ & Hw & Hstep & Hfin).
  exists s1, w. split; [exact Hw|].
  rewrite write_step_eq in Hstep. rewrite finish_step_eq in Hfin.
  destruct (0 <? length (audio out))%nat eqn:Hlen.
  - cbv zeta in Hstep.
    destruct ((write_chunk w (audio out)).2) as [e | d] eqn:Hd; [discriminate|].
    injection Hstep as <- <- <-. split.
    + intros ->. injection Hfin as _ <-. rewrite or_empty_id.
      split; [|reflexivity]. intros E. rewrite E in Hlen. discriminate.
    + intros ->. cbv zeta in Hfin.
      destruct ((write_chunk_finalize (write_chunk w (audio out)).1).2)
        as [e | final]; [discriminate|].
      injection Hfin as _ <-. now rewrite or_empty_id.
  - injection Hstep as <- <- <-. split.
    + intros ->. discriminate.
    + intros ->. cbv zeta in Hfin.
      destruct ((write_chunk_finalize w).2) as [e | final]; [discriminate|].
      injection Hfin as _ <-. now rewrite or_empty_id.
Qed.

(** X14.  After a call that returns, the key is bound in the writer map
    exactly when the chunk was not the last one; and every sample of the
    returned chunk is an int16 value, the chunk being no longer than the
    buffer that came in. *)
Theorem returned_call_leaves_session
    (audio_chunk : AudioChunk float) (sample_rate : Z) (output_format : string)
    (speed : Q) (chunk_text : string) (is_first_chunk is_last_chunk : bool)
    (normalizer : option AudioNormalizer) (s s' : state)
    (data : list Byte.byte) (out : AudioChunk Z) :
  convert_audio settings audio_chunk sample_rate output_format speed chunk_text
    is_first_chunk is_last_chunk normalizer s = (s', inr (data, out)) ->
  (_writers s' !! writer_key output_format sample_rate = None
   <-> is_last_chunk = true) /\
  Forall NormalizeFacts.in_int16 (audio out) /\
  (length (audio out) <= length (audio audio_chunk))%nat.
Proof.
  intros Hcall.
  destruct (convert_audio_returns _ _ _ _ _ _ _ _ _ _ _ _ Hcall)
    as (s1 & w & s2 & w2 & chunk_data & _ & Hprep & Hw & Hstep & Hfin).
  split; [|exact (prepare_int16 _ _ _ _ _ _ _ Hprep)].
  rewrite write_step_eq in Hstep. rewrite finish_step_eq in Hfin.
  destruct is_last_chunk.
  - cbv zeta in Hfin.
    destruct ((write_chunk_finalize w2).2); [discriminate|].
    injection Hfin as <- _. cbn [_writers]. rewrite lookup_delete_eq. tauto.
  - destruct chunk_data as [d|]; [|discriminate].
    injection Hfin as <- _.
    destruct (0 <? length (audio out))%nat; [|discriminate].
    cbv zeta in Hstep.
    destruct ((write_chunk w (audio out)).2); [discriminate|].
    injection Hstep as <- _ _. cbn [_writers]. rewrite lookup_insert_eq.
    split; [discriminate | discriminate].
Qed.

(** X15.  A first chunk never uses a writer left under its key: with any
    stale writer stored there beforehand the call has the same outcome and
    makes the same collaborator calls, and once preparation and construction
    have succeeded it leaves the very same state; the stale writer is
    replaced without being finalized. *)
Theorem first_chunk_ignores_stale_writer
    (audio_chunk : AudioChunk float) (sample_rate : Z) (output_format : string)
    (speed : Q) (chunk_text : string) (is_last_chunk : bool)
    (normalizer : option AudioNormalizer) (s : state) (stale : writer) :
  let key := writer_key output_format sample_rate in
  let s0 := {| _writers := <[key := stale]> (_writers s);
               journal := journal s |} in
  let call :=
    convert_audio settings audio_chunk sample_rate output_format speed
      chunk_text true is_last_chunk normalizer in
  (call s0).2 = (call s).2 /\
  journal (call s0).1 = journal (call s).1 /\
  (forall prepared w,
     output_format ∈ SUPPORTED_FORMATS ->
     prepare settings audio_chunk speed chunk_text is_last_chunk normalizer
     = inr prepared ->
     writer_init output_format sample_rate = inr w ->
     (call s0).1 = (call s).1).
Proof.
  intros key s0 call. subst call.
  destruct (decide (output_format ∈ SUPPORTED_FORMATS)) as [Hf | Hf].
  2:{ rewrite !convert_audio_unsupported by exact Hf.
      split; [reflexivity|]. split; [reflexivity|]. intros; contradiction. }
  rewrite !convert_audio_supported by exact Hf.
  destruct (prepare settings audio_chunk speed chunk_text is_last_chunk normalizer)
    as [e | prepared].
  { split; [reflexivity|]. split; [reflexivity|]. intros; discriminate. }
  unfold encode. rewrite !obtain_writer_eq. cbv zeta. fold key.
  destruct (writer_init output_format sample_rate) as [e | w].
  { split; [reflexivity|]. split; [reflexivity|]. intros; discriminate. }
  subst s0. cbn [_writers journal]. rewrite insert_insert_eq.
  split; [reflexivity|]. split; reflexivity.
Qed.

(** X16.  An empty input buffer with a supported format: the call fails
    with the handler's error around "Empty audio data" before any writer is
    looked up or constructed, on a first chunk too. *)
Theorem empty_buffer_rejected
    (audio_chunk : AudioChunk float) (sample_rate : Z) (output_format : string)
    (speed : Q) (chunk_text : string) (is_first_chunk is_last_chunk : bool)
    (normalizer : option AudioNormalizer) (s : state) :
  output_format ∈ SUPPORTED_FORMATS ->
  audio audio_chunk = [] ->
  exists s',
    convert_audio settings audio_chunk sample_rate output_format speed
      chunk_text is_first_chunk is_last_chunk normalizer s =
    (s', inl (Py.ValueError
                ("Failed to convert audio stream to " +:+ output_format
                 +:+ ": Empty audio data"))) /\
    _writers s' = _writers s /\
    constructions (journal s') = constructions (journal s).
Proof.
  intros Hf Hempty. rewrite convert_audio_supported by exact Hf.
  unfold prepare, normalize. rewrite Hempty. cbn [length Nat.eqb handled].
  eexists. split; [reflexivity|]. split; [reflexivity|].
  cbn [logged journal]. unfold constructions.
  rewrite List.filter_app, length_app. cbn. lia.
Qed.

End SessionProperties.

Lemma returned_bytes_witness :
  exists s' data out s1 w,
    convert_audio (H := Examples.recording_writer) Examples.settings
      Examples.half_scale 24000 "pcm" 1 "" true true None Examples.idle
    = (s', inr (data, out)) /\
    obtain_writer (H := Examples.recording_writer) "pcm" 24000 true Examples.idle
    = (s1, inr w) /\
    (write_chunk_finalize
       (if (0 <? length (audio out))%nat
        then (write_chunk w (audio out)).1 else w)).2 = inr data.
Proof.
  destruct (convert_audio (H := Examples.recording_writer) Examples.settings
              Examples.half_scale 24000 "pcm" 1 "" true true None Examples.idle)
    as [s' [e | [data out]]] eqn:Hcall; [vm_compute in Hcall; discriminate|].
  destruct (returned_bytes (H := Examples.recording_writer) _ _ _ _ _ _ _ _ _ _ _
              _ _ Hcall) as (s1 & w & Hw & _ & Hlast).
  exists s', data, out, s1, w. split; [reflexivity|]. split; [exact Hw|].
  exact (Hlast eq_refl).
Defined.

Lemma returned_call_leaves_session_witness :
  exists s' data out,
    convert_audio (H := Examples.recording_writer) Examples.settings
      Examples.half_scale 24000 "pcm" 1 "" true true None Examples.idle
    = (s', inr (data, out)) /\
    _writers s' !! "pcm_24000" = None.
Proof.
  destruct (convert_audio (H := Examples.recording_writer) Examples.settings
              Examples.half_scale 24000 "pcm" 1 "" true true None Examples.idle)
    as [s' [e | [data out]]] eqn:Hcall; [vm_compute in Hcall; discriminate|].
  exists s', data, out. split; [reflexivity|].
  exact (proj2 (proj1 (returned_call_leaves_session
                         (H := Examples.recording_writer) _ _ _ _ _ _ _ _ _ _ _
                         _ _ Hcall)) eq_refl).
Defined.

Lemma first_chunk_ignores_stale_writer_witness :
  (convert_audio (H := Examples.recording_writer) Examples.settings
     Examples.half_scale 24000 "wav" 1 "" true false None
     {| _writers := {[ "wav_24000" := [1; 2; 3] ]}; journal := [] |}).1
  = (convert_audio (H := Examples.recording_writer) Examples.settings
       Examples.half_scale 24000 "wav" 1 "" true false None Examples.idle).1.
Proof.
  destruct (prepare Examples.settings Examples.half_scale 1 "" false None)
    as [e | prepared] eqn:Hprep; [vm_compute in Hprep; discriminate|].
  refine (proj2 (proj2 (first_chunk_ignores_stale_writer
                          (H := Examples.recording_writer) Examples.settings
                          Examples.half_scale 24000 "wav" 1 "" false None
                          Examples.idle [1; 2; 3])) prepared [] _ Hprep eq_refl).
  apply (bool_decide_unpack _). vm_compute. exact I.
Defined.

Lemma empty_buffer_rejected_witness :
  exists s',
    convert_audio (H := Examples.recording_writer) Examples.settings
      {| audio := []; word_timestamps := None |} 24000 "wav" 1 "" true false
      None Examples.idle =
    (s', inl (Py.ValueError
                "Failed to convert audio stream to wav: Empty audio data")) /\
    _writers s' = ∅.
Proof.
  destruct (empty_buffer_rejected (H := Examples.recording_writer)
              Examples.settings {| audio := []; word_timestamps := None |}
              24000 "wav" 1 "" true false None Examples.idle)
    as (s' & Hcall & Hmap & _);
    [apply (bool_decide_unpack _); vm_compute; exact I | reflexivity |].
  exists s'. split; [exact Hcall | exact Hmap].
Defined.

(** ** The captioned-speech endpoint *)

Section CaptionedSpeech.

Import Captions.

(** [get] returns the default or a value the object holds under the key. *)
Lemma get_cases (members : list (string * json)) (key : string) (default : json) :
  get members key default = default \/
  In (key, get members key default) members.
Proof.
  revert default. induction members as [|[k v] rest IH]; intros default.
  - left. reflexivity.
  - cbn [get]. destruct (String.eqb_spec k key) as [-> | Hne].
    + destruct (IH v) as [-> | Hin]; [right; left; reflexivity | right; right; exact Hin].
    + destruct (IH default) as [-> | Hin]; [left; reflexivity | right; right; exact Hin].
Qed.

Lemma collect_all (return_timestamps : json) (chunks : list (AudioChunk float))
    (audio_chunks : list (list float)) (combined : list json) :
  fold_left (collect return_timestamps) chunks (audio_chunks, combined) =
  (audio_chunks ++ map audio chunks,
   combined ++
   (if truthy return_timestamps
    then flat_map (fun chunk =>
                     match word_timestamps chunk with
                     | Some l => map timestamp_entry l
                     | None => []
                     end) chunks
    else [])).
Proof.
  revert audio_chunks combined.
  induction chunks as [|chunk chunks IH]; intros audio_chunks combined.
  - cbn. destruct (truthy return_timestamps); now rewrite !app_nil_r.
  - cbn [fold_left collect]. rewrite IH. cbn [map flat_map].
    rewrite <- app_assoc. f_equal. cbn [app].
    destruct (truthy return_timestamps); [|reflexivity].
    destruct (word_timestamps chunk) as [l|]; [|reflexivity].
    rewrite app_assoc. f_equal.
    clear. revert combined. induction l as [|ts l IHl]; intros combined.
    + cbn. now rewrite app_nil_r.
    + cbn [fold_left map]. rewrite IHl. now rewrite <- app_assoc.
Qed.

Lemma string_length_app (s1 s2 : string) :
  String.length (s1 +:+ s2) = (String.length s1 + String.length s2)%nat.
Proof.
  induction s1 as [|c s1 IH]; [reflexivity|].
  change (String c s1 +:+ s2) with (String c (s1 +:+ s2)).
  cbn [String.length]. now rewrite IH.
Qed.

Lemma json_name_not_speech (unique_id : string) :
  path_join "temp_files" (unique_id +:+ ".json")
  <> path_join "temp_files" "speech.mp3".
Proof.
  unfold path_join. intros E. apply String.app_inj in E.
  apply (String.app_inj "/") in E.
  assert (String.length (unique_id +:+ ".json") = 10%nat) as Hlen
    by (rewrite E; reflexivity).
  rewrite string_length_app in Hlen. cbn in Hlen.
  destruct unique_id as [|c1 [|c2 [|c3 [|c4 [|c5 [|c6 rest]]]]]];
    cbn in Hlen; try lia.
  cbn in E. injection E as _ _ _ _ _ E. discriminate E.
Qed.

End CaptionedSpeech.

Section Endpoint.

Import Captions.

Variable backend : Backend.
Variables model_path unique_id : string.
Variable init_headers : string -> string -> string -> gmap string string.
Variable members : list (string * json).
Variable w : world.

Let text := get members "input" JNull.
Let voice := get members "voice" JNull.
Let speed := get members "speed" (JNumber 1).
Let return_timestamps := get members "return_timestamps" (JBool false).
Let request :=
  captioned_speech backend model_path unique_id init_headers (JObject members) w.
Let mp3_file := path_join "temp_files" "speech.mp3".
Let json_file := path_join "temp_files" (unique_id +:+ ".json").

(** X17.  A request whose body has no truthy ["input"], or no truthy
    ["voice"] (the key is missing, or every value given for it is null,
    empty, zero or false), is answered with status 400 before anything is
    touched: no directory, no file, no log line, no backend call. *)
Theorem request_without_input_or_voice_rejected :
  (forall v, In ("input", v) members -> truthy v = false) \/
  (forall v, In ("voice", v) members -> truthy v = false) ->
  request = (w, HTTPException 400 "Input and voice fields are required.").
Proof.
  intros Hmissing. subst request. unfold captioned_speech.
  assert (truthy (get members "input" JNull) = false \/
          truthy (get members "voice" JNull) = false) as [-> | ->].
  { destruct Hmissing as [Hm | Hm]; [left | right].
    - destruct (get_cases members "input" JNull) as [-> | Hin]; auto.
    - destruct (get_cases members "voice" JNull) as [-> | Hin]; auto. }
  - reflexivity.
  - now rewrite orb_true_r.
Qed.

(** X18.  When the request is accepted, the model is available and the
    generation ends without raising, the response serves
    [temp_files/speech.mp3], and that file holds the fixed bytes
    [FAKE_MP3_DATA] whatever audio the backend produced. *)
Theorem response_is_placeholder_audio (chunks : list (AudioChunk float)) :
  truthy text = true -> truthy voice = true ->
  (if is_loaded backend then None else load_model backend model_path) = None ->
  generate backend text voice speed return_timestamps = (chunks, None) ->
  exists w' response,
    request = (w', Returned response) /\
    path response = mp3_file /\
    media_type response = "audio/mpeg" /\
    files w' !! mp3_file = Some (Binary (list_byte_of_string "FAKE_MP3_DATA")).
Proof.
  intros Ht Hv Hload Hgen. subst request. unfold captioned_speech.
  fold text voice speed return_timestamps. rewrite Ht, Hv. cbn [negb orb].
  replace (if negb (is_loaded backend) then load_model backend model_path else None)
    with (@None Py.exn) by (destruct (is_loaded backend); [reflexivity | now rewrite Hload]).
  rewrite Hgen, collect_all. cbn [app].
  destruct (truthy return_timestamps) eqn:Hrt; cbn [andb].
  - fold json_file. fold mp3_file.
    destruct (String.eqb json_file ""); cbn [negb];
      (eexists _, _; split; [reflexivity|]; split; [reflexivity|];
       split; [reflexivity|]; cbn [files write_file makedirs];
       rewrite lookup_insert_ne by apply json_name_not_speech;
       apply lookup_insert_eq).
  - eexists _, _. split; [reflexivity|]. split; [reflexivity|].
    split; [reflexivity|]. cbn [files write_file makedirs].
    apply lookup_insert_eq.
Qed.

(** X19.  Under the same conditions, with a truthy ["return_timestamps"]
    the response carries the headers [FileResponse] was built with plus the
    header [x_timestamp_path] naming [temp_files/<uuid>.json], and that file
    holds the word timestamps of all chunks in the order generated, chunks
    without timestamps contributing nothing; with a falsy one the headers
    are exactly those [FileResponse] was built with (the handler adds none)
    and no file besides the audio placeholder is written. *)
Theorem timestamps_file_collects_in_order (chunks : list (AudioChunk float)) :
  truthy text = true -> truthy voice = true ->
  (if is_loaded backend then None else load_model backend model_path) = None ->
  generate backend text voice speed return_timestamps = (chunks, None) ->
  exists w' response,
    request = (w', Returned response) /\
    (truthy return_timestamps = true ->
     headers response =
       <[ "x_timestamp_path" := json_file ]>
         (init_headers mp3_file "audio/mpeg" "speech.mp3") /\
     headers response !! "x_timestamp_path" = Some json_file /\
     files w' !! json_file =
       Some (JsonDump
               (JArray (flat_map
                          (fun chunk =>
                             match word_timestamps chunk with
                             | Some l => map timestamp_entry l
                             | None => []
                             end) chunks)))) /\
    (truthy return_timestamps = false ->
     headers response = init_headers mp3_file "audio/mpeg" "speech.mp3" /\
     files w' =
       <[ mp3_file := Binary (list_byte_of_string "FAKE_MP3_DATA") ]> (files w)).
Proof.
  intros Ht Hv Hload Hgen. subst request. unfold captioned_speech.
  fold text voice speed return_timestamps. rewrite Ht, Hv. cbn [negb orb].
  replace (if negb (is_loaded backend) then load_model backend model_path else None)
    with (@None Py.exn) by (destruct (is_loaded backend); [reflexivity | now rewrite Hload]).
  rewrite Hgen, collect_all. cbn [app].
  destruct (truthy return_timestamps) eqn:Hrt; cbn [andb].
  - fold json_file. fold mp3_file.
    assert (String.eqb json_file "" = false) as ->.
    { apply String.eqb_neq. subst json_file. unfold path_join. discriminate. }
    cbn [negb]. eexists _, _. split; [reflexivity|]. split; [|discriminate].
    intros _. cbn [headers files write_file makedirs path media_type filename].
    split; [reflexivity|]. split; apply lookup_insert_eq.
  - eexists _, _. split; [reflexivity|]. split; [discriminate|].
    intros _. split; reflexivity.
Qed.

(** X20.  When the model fails to load, or the generation raises (even after
    it has yielded chunks), the request is answered with status 500, one
    line is logged, and no file is written: the only change on disk is the
    [temp_files] directory. *)
Theorem failed_generation_writes_nothing :
  truthy text = true -> truthy voice = true ->
  (is_loaded backend = false /\ load_model backend model_path <> None) \/
  (generate backend text voice speed return_timestamps).2 <> None ->
  exists w' detail,
    request = (w', HTTPException 500 detail) /\
    (detail = "Model failed to load." \/ detail = "TTS generation failed.") /\
    files w' = files w /\
    directories w' = {[ "temp_files" ]} ∪ directories w /\
    length (log w') = S (length (log w)).
Proof.
  intros Ht Hv Hfail. subst request. unfold captioned_speech.
  fold text voice speed return_timestamps. rewrite Ht, Hv. cbn [negb orb].
  destruct (if negb (is_loaded backend) then load_model backend model_path
            else None) as [e|] eqn:Hload.
  - eexists _, _. split; [reflexivity|]. split; [left; reflexivity|].
    cbn. rewrite length_app. cbn.
    split; [reflexivity|]. split; [reflexivity | lia].
  - destruct Hfail as [[Hl Hne] | Hgen].
    { rewrite Hl in Hload. cbn in Hload. contradiction. }
    destruct (generate backend text voice speed return_timestamps)
      as [chunks [e|]]; [|contradiction].
    rewrite collect_all.
    eexists _, _. split; [reflexivity|]. split; [right; reflexivity|].
    cbn. rewrite length_app. cbn.
    split; [reflexivity|]. split; [reflexivity | lia].
Qed.

End Endpoint.

(** X21.  Whatever the request body and the backend do, the handler changes
    at most two files, [temp_files/speech.mp3] and [temp_files/<uuid>.json]:
    every other file is as it was. *)
Theorem request_touches_two_files
    (backend : Captions.Backend) (model_path unique_id : string)
    (init_headers : string -> string -> string -> gmap string string)
    (payload : Captions.json) (w : Captions.world) (p : string) :
  p <> Captions.path_join "temp_files" "speech.mp3" ->
  p <> Captions.path_join "temp_files" (unique_id +:+ ".json") ->
  Captions.files
    (Captions.captioned_speech backend model_path unique_id init_headers
       payload w).1 !! p
  = Captions.files w !! p.
Proof.
  intros Hmp3 Hjson. unfold Captions.captioned_speech.
  destruct payload as [| | | | |members]; try reflexivity.
  destruct (negb _ || negb _); [reflexivity|].
  destruct (if negb (Captions.is_loaded backend) then _ else None);
    [reflexivity|].
  destruct (Captions.generate backend _ _ _ _) as [chunks [e|]].
  - rewrite collect_all. reflexivity.
  - rewrite collect_all.
    destruct (Captions.truthy (Captions.get members "return_timestamps" _));
      cbn [andb].
    + destruct (negb _); cbn [fst Captions.files Captions.write_file];
        rewrite lookup_insert_ne by congruence;
        now rewrite lookup_insert_ne by congruence.
    + cbn [fst Captions.files Captions.write_file].
      now rewrite lookup_insert_ne by congruence.
Qed.

Lemma request_without_input_or_voice_rejected_witness :
  Captions.captioned_speech CaptionExamples.working_backend "model.pth" "id-1"
    CaptionExamples.library_headers (Captions.JObject CaptionExamples.request_without_input)
    CaptionExamples.empty_world
  = (CaptionExamples.empty_world,
     Captions.HTTPException 400 "Input and voice fields are required.").
Proof.
  apply request_without_input_or_voice_rejected. left.
  intros v [Hin | [Hin | []]]; [discriminate Hin|].
  injection Hin as <-. reflexivity.
Defined.

Lemma response_is_placeholder_audio_witness :
  exists w' response,
    Captions.captioned_speech CaptionExamples.working_backend "model.pth" "id-1"
      CaptionExamples.library_headers (Captions.JObject CaptionExamples.full_request)
      CaptionExamples.empty_world = (w', Captions.Returned response) /\
    Captions.files w' !! "temp_files/speech.mp3"
    = Some (Captions.Binary (list_byte_of_string "FAKE_MP3_DATA")).
Proof.
  destruct (response_is_placeholder_audio CaptionExamples.working_backend
              "model.pth" "id-1" CaptionExamples.library_headers
              CaptionExamples.full_request
              CaptionExamples.empty_world
              [CaptionExamples.first_chunk; CaptionExamples.second_chunk]
              eq_refl eq_refl eq_refl eq_refl)
    as (w' & response & Hreq & _ & _ & Hfile).
  exists w', response. split; [exact Hreq | exact Hfile].
Defined.

Lemma timestamps_file_collects_in_order_witness :
  exists w' response,
    Captions.captioned_speech CaptionExamples.working_backend "model.pth" "id-1"
      CaptionExamples.library_headers (Captions.JObject CaptionExamples.full_request)
      CaptionExamples.empty_world = (w', Captions.Returned response) /\
    Captions.headers response !! "x_timestamp_path"
    = Some "temp_files/id-1.json" /\
    Captions.headers response !! "content-type" = Some "audio/mpeg" /\
    Captions.files w' !! "temp_files/id-1.json"
    = Some (Captions.JsonDump
              (Captions.JArray
                 [ Captions.timestamp_entry
                     {| word := "Hello"; start_time := 0; end_time := 3 # 10 |};
                   Captions.timestamp_entry
                     {| word := "world"; start_time := 0; end_time := 4 # 10 |} ])).
Proof.
  destruct (timestamps_file_collects_in_order CaptionExamples.working_backend
              "model.pth" "id-1" CaptionExamples.library_headers
              CaptionExamples.full_request
              CaptionExamples.empty_world
              [CaptionExamples.first_chunk; CaptionExamples.second_chunk]
              eq_refl eq_refl eq_refl eq_refl)
    as (w' & response & Hreq & Hyes & _).
  exists w', response. split; [exact Hreq|].
  destruct (Hyes eq_refl) as (Hheaders & Hpath & Hfile).
  split; [exact Hpath|]. split; [|exact Hfile].
  rewrite Hheaders. reflexivity.
Defined.

Lemma failed_generation_writes_nothing_witness :
  exists w' detail,
    Captions.captioned_speech CaptionExamples.breaking_backend "model.pth" "id-1"
      CaptionExamples.library_headers (Captions.JObject CaptionExamples.full_request)
      CaptionExamples.empty_world = (w', Captions.HTTPException 500 detail) /\
    Captions.files w' = ∅.
Proof.
  destruct (failed_generation_writes_nothing CaptionExamples.breaking_backend
              "model.pth" "id-1" CaptionExamples.library_headers
              CaptionExamples.full_request
              CaptionExamples.empty_world eq_refl eq_refl)
    as (w' & detail & Hreq & _ & Hfiles & _).
  { right. discriminate. }
  exists w', detail. split; [exact Hreq | exact Hfiles].
Defined.

Lemma request_touches_two_files_witness :
  Captions.files
    (Captions.captioned_speech CaptionExamples.working_backend "model.pth" "id-1"
       CaptionExamples.library_headers (Captions.JObject CaptionExamples.full_request)
       {| Captions.directories := ∅;
          Captions.files := {[ "temp_files/old.json" := Captions.Binary [] ]};
          Captions.log := [] |}).1 !! "temp_files/old.json"
  = Some (Captions.Binary []).
Proof.
  etransitivity;
    [apply request_touches_two_files; discriminate | reflexivity].
Defined.

End Extras.
